(** * zod-hook-form-generator: visibility rules, cross-field checks and messages

    A shallow embedding of the decision logic of the form generator:
    the visibility evaluator and the schema walk of [ZodForm.tsx], the
    validator bundles of [validators.ts], the two whole-schema refinements of
    [App.tsx] and [formatMessage] of [IntlProvider.tsx], followed by the
    properties established about them. *)

From Stdlib Require Import ZArith Bool Ascii String Lia.
From stdpp Require Import base option list strings pretty gmap.

Local Open Scope string_scope.
Local Open Scope list_scope.

(** ** JavaScript values

    Form values and condition literals are JavaScript primitives: the widgets
    produce texts, numbers and booleans, and an unset field reads [undefined].
    Numbers are carried by their integer value, with [NaN] apart. *)

Module JS.

Inductive JsValue : Type :=
| JsUndefined
| JsNull
| JsBoolean (b : bool)
| JsNumber (n : Z)
| JsNaN
| JsString (s : string).

#[global] Instance JsValue_eq_dec : EqDecision JsValue.
Proof. solve_decision. Defined.

(** [x === y]: same type and same value; [NaN] is not equal to itself. *)
Definition strict_equals (x y : JsValue) : bool :=
  match x, y with
  | JsUndefined, JsUndefined => true
  | JsNull, JsNull => true
  | JsBoolean a, JsBoolean b => Bool.eqb a b
  | JsNumber a, JsNumber b => Z.eqb a b
  | JsString a, JsString b => String.eqb a b
  | _, _ => false
  end.

(** [x !== y]. *)
Definition strict_not_equals (x y : JsValue) : bool := negb (strict_equals x y).

(** Truthiness, as tested by [if (x)], [!x], [x && y] and [x || y]. *)
Definition truthy (x : JsValue) : bool :=
  match x with
  | JsUndefined | JsNull | JsNaN => false
  | JsBoolean b => b
  | JsNumber n => negb (Z.eqb n 0)
  | JsString s => negb (String.eqb s "")
  end.

(** [typeof x === 'string']. *)
Definition is_string (x : JsValue) : bool :=
  match x with JsString _ => true | _ => false end.

(** The conversion [String(x)] that string methods apply to an argument. *)
Definition to_string (x : JsValue) : string :=
  match x with
  | JsUndefined => "undefined"
  | JsNull => "null"
  | JsBoolean true => "true"
  | JsBoolean false => "false"
  | JsNumber n => pretty n
  | JsNaN => "NaN"
  | JsString s => s
  end.

(** [s.includes(search)] for two texts: [search] occurs in [s] at some
    position. *)
Fixpoint includes (s search : string) : bool :=
  String.prefix search s
  || match s with
     | EmptyString => false
     | String _ rest => includes rest search
     end.

(** [s.includes(x)] for any argument [x], which is converted to a text
    first. *)
Definition string_includes (s : string) (x : JsValue) : bool :=
  includes s (to_string x).

(** A plain object used as a record of values: [obj[key]] reads [undefined]
    when the key is not set. Only the entries of the record itself are
    read: the members a plain object inherits ([constructor], [toString]
    and the like) are not carried. *)
Definition get (obj : gmap string JsValue) (key : string) : JsValue :=
  default JsUndefined (obj !! key).

End JS.

(** ** Localization provider ([IntlProvider.tsx], [i18n/en.ts], [i18n/fr.ts]) *)

Module Intl.
Import JS.

Inductive Locale : Type := LocaleEn | LocaleFr.

(** The message tables, in the order of the object literals. *)
Definition en : list (string * string) :=
  [ ("app.title", "Zod hook form generator")
  ; ("app.subtitle", "Automatic Form Generation with Conditional Fields via Meta")
  ; ("form.submit", "Submit Form")
  ; ("form.email.placeholder", "Enter your email")
  ; ("form.password.placeholder", "Enter your password")
  ; ("form.field.placeholder", "Enter {fieldName}")
  ; ("form.select.placeholder", "Select {fieldName}")
  ; ("field.name", "Name")
  ; ("field.email", "Email")
  ; ("field.password", "Password")
  ; ("field.repeatPassword", "Repeat Password")
  ; ("field.country", "Country")
  ; ("field.gender", "Gender")
  ; ("field.notifications", "Notifications")
  ; ("field.newsletter", "Newsletter")
  ; ("field.phoneNumber", "Phone Number")
  ; ("field.address", "Address")
  ; ("field.terms", "Terms and Conditions")
  ; ("field.notifications.description", "Receive notifications by email")
  ; ("field.newsletter.description", "Subscribe to our newsletter")
  ; ("field.terms.description", "I accept the terms and conditions")
  ; ("field.name.placeholder", "Enter your full name")
  ; ("field.email.placeholder", "Enter your email address")
  ; ("field.password.placeholder", "Enter your password")
  ; ("field.repeatPassword.placeholder", "Confirm your password")
  ; ("field.phoneNumber.placeholder", "Enter your phone number")
  ; ("field.address.placeholder", "Enter your address")
  ; ("field.password.help", "Password must be at least 6 characters")
  ; ("field.phoneNumber.help", "Required for US residents only")
  ; ("field.address.help", "Required for non-US residents")
  ; ("country.us", "United States")
  ; ("country.ca", "Canada")
  ; ("country.uk", "United Kingdom")
  ; ("country.fr", "France")
  ; ("country.de", "Germany")
  ; ("gender.male", "Male")
  ; ("gender.female", "Female")
  ; ("gender.other", "Other")
  ; ("gender.prefer-not-to-say", "Prefer not to say")
  ; ("error.required", "This field is required")
  ; ("error.invalid", "Invalid value")
  ; ("error.name.min", "Name must be at least 2 characters")
  ; ("error.email.invalid", "Please enter a valid email")
  ; ("error.password.min", "Password must be at least 6 characters")
  ; ("error.password.match", "Passwords don't match")
  ; ("error.password.length", "Password must be at least 6 characters")
  ; ("error.terms.required", "You must accept the terms")
  ; ("error.phoneNumber.required", "Phone number for US residents")
  ; ("error.phoneNumber.length", "Phone number must be exactly 10 digits")
  ].

Definition fr : list (string * string) :=
  [ ("app.title", "Sandbox React Native")
  ; ("app.subtitle", "Génération Automatique de Formulaire avec Champs Conditionnels via Meta")
  ; ("form.submit", "Soumettre le Formulaire")
  ; ("form.email.placeholder", "Entrez votre email")
  ; ("form.password.placeholder", "Entrez votre mot de passe")
  ; ("form.field.placeholder", "Entrez {fieldName}")
  ; ("form.select.placeholder", "Sélectionnez {fieldName}")
  ; ("field.name", "Nom")
  ; ("field.email", "Email")
  ; ("field.password", "Mot de passe")
  ; ("field.repeatPassword", "Répéter le mot de passe")
  ; ("field.country", "Pays")
  ; ("field.gender", "Genre")
  ; ("field.notifications", "Notifications")
  ; ("field.newsletter", "Newsletter")
  ; ("field.phoneNumber", "Numéro de téléphone")
  ; ("field.address", "Adresse")
  ; ("field.terms", "Conditions générales")
  ; ("field.notifications.description", "Recevoir les notifications par email")
  ; ("field.newsletter.description", "S'abonner à notre newsletter")
  ; ("field.terms.description", "J'accepte les conditions générales")
  ; ("field.name.placeholder", "Entrez votre nom complet")
  ; ("field.email.placeholder", "Entrez votre adresse email")
  ; ("field.password.placeholder", "Entrez votre mot de passe")
  ; ("field.repeatPassword.placeholder", "Confirmez votre mot de passe")
  ; ("field.phoneNumber.placeholder", "Entrez votre numéro de téléphone")
  ; ("field.address.placeholder", "Entrez votre adresse")
  ; ("field.password.help", "Le mot de passe doit contenir au moins 6 caractères")
  ; ("field.phoneNumber.help", "Requis uniquement pour les résidents américains")
  ; ("field.address.help", "Requis pour les non-résidents américains")
  ; ("country.us", "États-Unis")
  ; ("country.ca", "Canada")
  ; ("country.uk", "Royaume-Uni")
  ; ("country.fr", "France")
  ; ("country.de", "Allemagne")
  ; ("gender.male", "Homme")
  ; ("gender.female", "Femme")
  ; ("gender.other", "Autre")
  ; ("gender.prefer-not-to-say", "Préfère ne pas dire")
  ; ("error.required", "Ce champ est requis")
  ; ("error.invalid", "Valeur invalide")
  ; ("error.name.min", "Le nom doit contenir au moins 2 caractères")
  ; ("error.email.invalid", "Veuillez entrer un email valide")
  ; ("error.password.min", "Le mot de passe doit contenir au moins 6 caractères")
  ; ("error.password.match", "Les mots de passe ne correspondent pas")
  ; ("error.terms.required", "Vous devez accepter les conditions")
  ; ("error.phoneNumber.required", "Le numéro de téléphone est requis et doit contenir exactement 10 chiffres pour les résidents américains")
  ; ("error.phoneNumber.length", "Le numéro de téléphone doit contenir exactement 10 chiffres")
  ].

Definition messages (locale : Locale) : list (string * string) :=
  match locale with
  | LocaleEn => en
  | LocaleFr => fr
  end.

(** [table[key]] on an object literal, over the entries written in the
    literal: the members it inherits are not carried. *)
Fixpoint lookup_message (table : list (string * string)) (key : string)
  : option string :=
  match table with
  | [] => None
  | (k, m) :: rest => if String.eqb k key then Some m else lookup_message rest key
  end.

Record MessageDescriptor : Type := {
  id : string;
  defaultMessage : option string
}.

(** The class [\w] of a regular expression: letters, digits and underscore. *)
Definition is_word_char (c : ascii) : bool :=
  let n := nat_of_ascii c in
  (((48 <=? n) && (n <=? 57))
   || ((65 <=? n) && (n <=? 90))
   || ((97 <=? n) && (n <=? 122))
   || (n =? 95))%nat.

(** The longest run of word characters at the head of [s], and what follows
    it: the greedy [\w+]. *)
Fixpoint span_word (s : string) : string * string :=
  match s with
  | EmptyString => (EmptyString, EmptyString)
  | String c rest =>
      if is_word_char c
      then let (w, rest') := span_word rest in (String c w, rest')
      else (EmptyString, s)
  end.

(** One match of [/\{(\w+)\}/] at the head of [s]: the captured key and the
    text after the closing brace. *)
Definition match_placeholder (s : string) : option (string * string) :=
  match s with
  | String c rest =>
      if Ascii.eqb c "{"
      then match span_word rest with
           | (String k w, String c' rest') =>
               if Ascii.eqb c' "}" then Some (String k w, rest') else None
           | _ => None
           end
      else None
  | EmptyString => None
  end.

(** [s.replace(/\{(\w+)\}/g, replacer)]: scanning from the left, a match is
    replaced by the text of what [replacer match key] returns and the scan
    goes on after it; any other character is copied. [fuel] bounds the
    number of steps, one per character at most. *)
Fixpoint replace_from (fuel : nat) (replacer : string -> string -> JsValue)
  (s : string) : string :=
  match fuel with
  | O => s
  | S fuel' =>
      match s with
      | EmptyString => EmptyString
      | String c rest =>
          match match_placeholder s with
          | Some (key, rest') =>
              to_string (replacer ("{" +:+ key +:+ "}") key)
              +:+ replace_from fuel' replacer rest'
          | None => String c (replace_from fuel' replacer rest)
          end
      end
  end.

Definition replace_placeholders (replacer : string -> string -> JsValue)
  (s : string) : string :=
  replace_from (String.length s) replacer s.

(** The callback [(match, key) => values[key] || match]. *)
Definition replacer (values : gmap string JsValue) (matched key : string)
  : JsValue :=
  let v := get values key in
  if truthy v then v else JsString matched.

(** [descriptor.defaultMessage || descriptor.id]. *)
Definition fallbackMessage (descriptor : MessageDescriptor) : string :=
  match defaultMessage descriptor with
  | Some d => if String.eqb d "" then id descriptor else d
  | None => id descriptor
  end.

(** [formatMessage(descriptor, values)] under the active [locale]. The
    console warning of the fallback branch is not carried. *)
Definition formatMessage (locale : Locale) (descriptor : MessageDescriptor)
  (values : option (gmap string JsValue)) : string :=
  match lookup_message (messages locale) (id descriptor) with
  | None => fallbackMessage descriptor
  | Some message =>
      if String.eqb message "" then fallbackMessage descriptor
      else match values with
           | Some vs => replace_placeholders (replacer vs) message
           | None => message
           end
  end.

End Intl.

(** ** Validator bundles ([validators.ts]) *)

Module Validators.
Import Intl.

(** A bundle: a check of one value, which may be [undefined], and the
    message of its failure under a translation function [t]. *)
Record Validator : Type := {
  validation : option string -> bool;
  errMessage : (MessageDescriptor -> string) -> string
}.

Module PhoneValidator.

(** [phoneNumber && phoneNumber.length === 10]: the empty text is falsy. *)
Definition checkPhoneNumber : Validator := {|
  validation := fun phoneNumber =>
    match phoneNumber with
    | Some p => negb (String.eqb p "") && Nat.eqb (String.length p) 10
    | None => false
    end;
  errMessage := fun t =>
    t {| id := "error.phoneNumber.length"; defaultMessage := None |}
|}.

End PhoneValidator.

Module PasswordValidator.

(** [password && password.length >= 6]. *)
Definition checkPassword : Validator := {|
  validation := fun password =>
    match password with
    | Some p => negb (String.eqb p "") && Nat.leb 6 (String.length p)
    | None => false
    end;
  errMessage := fun t =>
    t {| id := "error.password.length"; defaultMessage := None |}
|}.

End PasswordValidator.

End Validators.

(** ** The application schema ([App.tsx], [createFormSchema]) *)

Module App.
Import Intl Validators.

(** The object handed to the whole-schema refinements: one entry per
    declared field, the three optional ones possibly [undefined]. *)
Record FormData : Type := {
  name : string;
  email : string;
  country : string;
  gender : string;
  notifications : bool;
  password : string;
  repeatPassword : string;
  newsletter : option bool;
  phoneNumber : option string;
  address : option string;
  terms : bool
}.

(** The form handle, as far as the schema uses it: the names whose
    re-validation has been requested through [trigger], oldest first. *)
Record UseFormReturn : Type := {
  triggered : list string
}.

Definition trigger (fieldName : string) (form : UseFormReturn) : UseFormReturn :=
  {| triggered := triggered form ++ [fieldName] |}.

(** A validation issue: the path of the field it is shown at, and its text. *)
Record Issue : Type := {
  path : list string;
  message : string
}.

(** [.refine(check, { message, path })] on the whole object. A check may
    call the form handle, which it returns as it left it. [form] is [null]
    until the form has been mounted. *)
Record Refinement : Type := {
  check : option UseFormReturn -> FormData -> bool * option UseFormReturn;
  refinementMessage : string;
  refinementPath : list string
}.

(** [function checkPasswordMatch(data)]. *)
Definition checkPasswordMatch (data : FormData) : bool :=
  validation PasswordValidator.checkPassword (Some (password data)).

(** [function checkPhoneNumberLength(data)], with the form handle of the
    enclosing [createFormSchema(t, form)]. *)
Definition checkPhoneNumberLength (form : option UseFormReturn) (data : FormData)
  : bool * option UseFormReturn :=
  if negb (String.eqb (country data) "us") then (true, form)
  else
    let form' := trigger "phoneNumber" <$> form in
    (validation PhoneValidator.checkPhoneNumber (phoneNumber data), form').

Definition passwordRefinement (t : MessageDescriptor -> string) : Refinement := {|
  check := fun form data => (checkPasswordMatch data, form);
  refinementMessage := errMessage PasswordValidator.checkPassword t;
  refinementPath := ["repeatPassword"]
|}.

Definition phoneRefinement (t : MessageDescriptor -> string) : Refinement := {|
  check := checkPhoneNumberLength;
  refinementMessage := errMessage PhoneValidator.checkPhoneNumber t;
  refinementPath := ["phoneNumber"]
|}.

(** The refinements of [createFormSchema], in the order they are chained. *)
Definition refinements (t : MessageDescriptor -> string) : list Refinement :=
  [passwordRefinement t; phoneRefinement t].

(** One refinement on [data]: an issue at its path when the check fails. *)
Definition runRefinement (r : Refinement) (form : option UseFormReturn)
  (data : FormData) : list Issue * option UseFormReturn :=
  let (ok, form') := check r form data in
  (if ok then [] else [{| path := refinementPath r; message := refinementMessage r |}],
   form').

(** All refinements in turn, the form handle passed along. *)
Fixpoint runRefinements (rs : list Refinement) (form : option UseFormReturn)
  (data : FormData) : list Issue * option UseFormReturn :=
  match rs with
  | [] => ([], form)
  | r :: rest =>
      let (issues, form') := runRefinement r form data in
      let (issues', form'') := runRefinements rest form' data in
      (issues ++ issues', form'')
  end.

(** [z.string().min(n, message)] declared for field [fieldName]: an issue at
    that field when the text is shorter than [n]. *)
Definition stringMin (n : nat) (msg : string) (fieldName : string)
  (value : string) : list Issue :=
  if Nat.ltb (String.length value) n
  then [{| path := [fieldName]; message := msg |}]
  else [].

(** The declarations [password: z.string().min(6, ...)] and
    [repeatPassword: z.string().min(6, ...)]. *)
Definition passwordIssues (t : MessageDescriptor -> string) (data : FormData)
  : list Issue :=
  stringMin 6 (t {| id := "error.password.min"; defaultMessage := None |})
    "password" (password data).

Definition repeatPasswordIssues (t : MessageDescriptor -> string)
  (data : FormData) : list Issue :=
  stringMin 6 (t {| id := "error.password.min"; defaultMessage := None |})
    "repeatPassword" (repeatPassword data).

(** The issues shown at the field [fieldName]. *)
Definition issuesAt (fieldName : string) (issues : list Issue) : list Issue :=
  filter (fun i => path i = [fieldName]) issues.

(** The issues of the two password declarations and of the whole-schema
    refinements, fields first. *)
Definition passwordAndRefinementIssues (t : MessageDescriptor -> string)
  (form : option UseFormReturn) (data : FormData) : list Issue :=
  passwordIssues t data ++ repeatPasswordIssues t data
  ++ fst (runRefinements (refinements t) form data).

(** [defaultValues] of the form in [AppContent]; [newsletter] is not set. *)
Definition defaultValues : FormData := {|
  name := "Robin Lebhar";
  email := "robin@lebhar.com";
  country := "fr";
  gender := "male";
  notifications := false;
  password := "123456";
  repeatPassword := "123456";
  newsletter := None;
  phoneNumber := Some "";
  address := Some "123 Main St, Anytown, USA";
  terms := false
|}.

End App.

(** ** Schema nodes, as [ZodForm.tsx] inspects them *)

Module Zod.
Import JS.

(** One visibility condition of a [showConditions] array. [value] is
    [undefined] when the literal leaves it out. *)
Record Condition : Type := {
  field : string;
  operator : string;
  value : JsValue
}.

(** The operators of the type of [FieldConfig.showConditions], which are
    the case labels of the evaluator's [switch]. *)
Definition operators : list string :=
  ["equals"; "notEquals"; "contains"; "notContains"; "true"; "false"].

(** The [showConditions] property of a metadata object: not set, an array of
    conditions, or some other value, of which only the truthiness matters. *)
Inductive ShowConditionsProperty : Type :=
| ShowConditionsUnset
| ShowConditionsArray (conditions : list Condition)
| ShowConditionsOther (isTruthy : bool).

Record Meta : Type := {
  showConditions : ShowConditionsProperty
}.

(** What a call [node.meta()] does: it throws (a node without that method),
    or returns [undefined] or a metadata object. *)
Inductive MetaCall : Type :=
| MetaThrows
| MetaReturns (meta : option Meta).

(** The field declarations the form knows, and any other node. [checks] are
    the [kind]s of the checks of a text declaration, when it has a list of
    them. *)
Inductive ZodType : Type :=
| ZodString (checks : option (list string)) (metaCall : MetaCall)
| ZodNumber (metaCall : MetaCall)
| ZodBoolean (metaCall : MetaCall)
| ZodEnum (options : list string) (metaCall : MetaCall)
| ZodOptional (innerType : ZodType) (metaCall : MetaCall)
| ZodOther (metaCall : MetaCall).

(** The schema given to the form: an object with its shape in declaration
    order, or anything else. *)
Inductive ZodSchema : Type :=
| ZodObject (shape : list (string * ZodType))
| ZodNotObject.

Definition metaCall_of (node : ZodType) : MetaCall :=
  match node with
  | ZodString _ m | ZodNumber m | ZodBoolean m | ZodEnum _ m
  | ZodOptional _ m | ZodOther m => m
  end.

(** [node instanceof z.ZodOptional], with [node._def.innerType]. *)
Definition asOptional (node : ZodType) : option ZodType :=
  match node with
  | ZodOptional inner _ => Some inner
  | _ => None
  end.

End Zod.

(** ** Completions: a statement returns a value or throws *)

Module Completion.

Inductive Completion (A : Type) : Type :=
| Normal (a : A)
| Throw.
Arguments Normal {A} a.
Arguments Throw {A}.

Definition bind {A B : Type} (c : Completion A) (k : A -> Completion B)
  : Completion B :=
  match c with
  | Normal a => k a
  | Throw => Throw
  end.

(** [try { body } catch (e) { handler }]. *)
Definition try_catch {A : Type} (body handler : Completion A) : Completion A :=
  match body with
  | Normal a => Normal a
  | Throw => handler
  end.

Module Notations.

Notation "'let*' x := c 'in' k" := (bind c (fun x => k))
  (at level 10, x name, c at level 100, k at level 200).

End Notations.

End Completion.

(** ** The form component ([ZodForm.tsx]) *)

Module ZodForm.
Import JS Zod Completion Completion.Notations.

(** [(fieldSchema as any).meta()]. *)
Definition callMeta (node : ZodType) : Completion (option Meta) :=
  match metaCall_of node with
  | MetaThrows => Throw
  | MetaReturns m => Normal m
  end.

(** What [getShowConditions] hands to [isFieldVisible]: an array of
    conditions, or a truthy value that is not an array, passed on as it is. *)
Inductive ShowConditions : Type :=
| Conditions (conditions : list Condition)
| NotAnArray.

(** The metadata lookup shared by [getShowConditions] and [fieldConfigs]:
    [let meta = null], a guarded call on the node, and for an optional node
    without metadata a guarded call on the wrapped node. *)
Definition readMeta (fieldSchema : ZodType) : Completion (option Meta) :=
  let* meta := try_catch (callMeta fieldSchema) (Normal None) in
  match asOptional fieldSchema, meta with
  | Some innerSchema, None => try_catch (callMeta innerSchema) (Normal meta)
  | _, _ => Normal meta
  end.

(** [getShowConditions(fieldSchema)]: [meta?.showConditions || []]. *)
Definition getShowConditions (fieldSchema : ZodType) : Completion ShowConditions :=
  let* meta := readMeta fieldSchema in
  Normal
    match meta with
    | None => Conditions []
    | Some m =>
        match showConditions m with
        | ShowConditionsUnset => Conditions []
        | ShowConditionsArray cs => Conditions cs
        | ShowConditionsOther true => NotAnArray
        | ShowConditionsOther false => Conditions []
        end
    end.

(** The callback of [showConditions.every]: one condition against the
    watched values. The [switch] compares the operator with each case label
    in turn. *)
Definition conditionHolds (watchedValues : gmap string JsValue)
  (condition : Condition) : bool :=
  let fieldValue := get watchedValues (field condition) in
  if String.eqb (operator condition) "equals" then
    strict_equals fieldValue (value condition)
  else if String.eqb (operator condition) "notEquals" then
    strict_not_equals fieldValue (value condition)
  else if String.eqb (operator condition) "contains" then
    is_string fieldValue
    && match fieldValue with
       | JsString s => string_includes s (value condition)
       | _ => false
       end
  else if String.eqb (operator condition) "notContains" then
    is_string fieldValue
    && match fieldValue with
       | JsString s => negb (string_includes s (value condition))
       | _ => false
       end
  else if String.eqb (operator condition) "true" then
    strict_equals fieldValue (JsBoolean true)
  else if String.eqb (operator condition) "false" then
    strict_equals fieldValue (JsBoolean false)
  else true.

(** [isFieldVisible(showConditions)] of the component that reads the
    conditions through [getShowConditions]. *)
Definition isFieldVisible (watchedValues : gmap string JsValue)
  (showConditions : list Condition) : bool :=
  if Nat.eqb (length showConditions) 0 then true
  else forallb (conditionHolds watchedValues) showConditions.

End ZodForm.

(** ** Text helpers of the schema walk *)

Module Text.

Definition is_upper (c : ascii) : bool :=
  let n := nat_of_ascii c in ((65 <=? n) && (n <=? 90))%nat.

Definition is_lower (c : ascii) : bool :=
  let n := nat_of_ascii c in ((97 <=? n) && (n <=? 122))%nat.

Definition lower_char (c : ascii) : ascii :=
  if is_upper c then ascii_of_nat (nat_of_ascii c + 32) else c.

Definition upper_char (c : ascii) : ascii :=
  if is_lower c then ascii_of_nat (nat_of_ascii c - 32) else c.

(** [s.toLowerCase()], on the letters A to Z: other characters are kept. *)
Fixpoint toLowerCase (s : string) : string :=
  match s with
  | EmptyString => EmptyString
  | String c rest => String (lower_char c) (toLowerCase rest)
  end.

(** [s.charAt(0).toUpperCase() + s.slice(1)], on the letters a to z. *)
Definition capitalize (s : string) : string :=
  match s with
  | EmptyString => EmptyString
  | String c rest => String (upper_char c) rest
  end.

Definition starts_with_upper (s : string) : bool :=
  match s with
  | EmptyString => false
  | String c _ => is_upper c
  end.

(** [s.split(/(?=[A-Z])/)]: cut before every capital letter but the first
    character. *)
Fixpoint splitBeforeCapitals (s : string) : list string :=
  match s with
  | EmptyString => [EmptyString]
  | String c rest =>
      match splitBeforeCapitals rest with
      | piece :: pieces =>
          if starts_with_upper rest
          then String c EmptyString :: piece :: pieces
          else String c piece :: pieces
      | [] => [String c EmptyString]
      end
  end.

(** [pieces.join(sep)]. *)
Fixpoint join (sep : string) (pieces : list string) : string :=
  match pieces with
  | [] => EmptyString
  | [piece] => piece
  | piece :: rest => piece +:+ sep +:+ join sep rest
  end.

(** [s.replace(/^\w/, c => c.toUpperCase())]. *)
Definition upperFirstWordChar (s : string) : string :=
  match s with
  | EmptyString => EmptyString
  | String c rest =>
      if Intl.is_word_char c then String (upper_char c) rest else s
  end.

(** The default label of a field: its name cut at capitals, joined by
    spaces, lower-cased, first letter capitalized. *)
Definition humanize (fieldName : string) : string :=
  upperFirstWordChar (toLowerCase (join " " (splitBeforeCapitals fieldName))).

End Text.

(** ** The form component that compiles field configurations
    ([ZodForm.tsx] with [fieldConfigs]) *)

Module ZodFormConfig.
Import JS Intl Zod Completion Completion.Notations Text.

Inductive FieldType : Type :=
| TypeString
| TypeNumber
| TypeBoolean
| TypeEnum.

(** An entry [{ label, value }] of a choice field. *)
Record SelectOption : Type := {
  optionLabel : string;
  optionValue : string
}.

Record FieldConfig : Type := {
  name : string;
  type : FieldType;
  label : option string;
  placeholder : option string;
  description : option string;
  options : option (list SelectOption);
  isRequired : bool;
  isVisible : bool;
  isPassword : option bool;
  showConditions : option (list Condition);
  dependsOn : option (list string)
}.

Section Compile.

(** [t = formatMessage] of the active locale. *)
Variable t : MessageDescriptor -> option (gmap string JsValue) -> string.

(** The method [node.isOptional()] of the validation library: whether the
    node accepts [undefined]. The library decides it by parsing
    [undefined] with the node, so a declaration that is not wrapped may
    answer true as well. *)
Variable isOptional : ZodType -> bool.

Definition msg (key : string) : MessageDescriptor :=
  {| id := key; defaultMessage := None |}.

(** [t({ id: 'form.field.placeholder' }, { fieldName })]. *)
Definition fieldPlaceholder (fieldName : string) : string :=
  t (msg "form.field.placeholder") (Some {[ "fieldName" := JsString fieldName ]}).

(** [fieldName.toLowerCase().includes('password')]. *)
Definition namesPassword (fieldName : string) : bool :=
  includes (toLowerCase fieldName) "password".

(** [checks?.some((check) => check.kind === 'email')]. *)
Definition hasEmailCheck (checks : option (list string)) : bool :=
  match checks with
  | Some kinds => existsb (fun kind => String.eqb kind "email") kinds
  | None => false
  end.

(** The options of a choice field, each labelled by the message
    [<fieldName>.<option>] or by the capitalized option. *)
Definition enumOptions (fieldName : string) (opts : list string)
  : list SelectOption :=
  map (fun option =>
         let optionKey := fieldName +:+ "." +:+ option in
         {| optionLabel :=
              t {| id := optionKey; defaultMessage := Some (capitalize option) |}
                None;
            optionValue := option |})
      opts.

(** The initial record [{ name, type: 'string', isRequired: false,
    isVisible: true }]. *)
Definition initialConfig (fieldName : string) : FieldConfig := {|
  name := fieldName;
  type := TypeString;
  label := None;
  placeholder := None;
  description := None;
  options := None;
  isRequired := false;
  isVisible := true;
  isPassword := None;
  showConditions := None;
  dependsOn := None
|}.

Definition setKind (ty : FieldType) (required : bool) (config : FieldConfig)
  : FieldConfig :=
  {| name := name config; type := ty; label := label config;
     placeholder := placeholder config; description := description config;
     options := options config; isRequired := required;
     isVisible := isVisible config; isPassword := isPassword config;
     showConditions := showConditions config; dependsOn := dependsOn config |}.

Definition setPlaceholder (text : string) (config : FieldConfig) : FieldConfig :=
  {| name := name config; type := type config; label := label config;
     placeholder := Some text; description := description config;
     options := options config; isRequired := isRequired config;
     isVisible := isVisible config; isPassword := isPassword config;
     showConditions := showConditions config; dependsOn := dependsOn config |}.

Definition setIsPassword (config : FieldConfig) : FieldConfig :=
  {| name := name config; type := type config; label := label config;
     placeholder := placeholder config; description := description config;
     options := options config; isRequired := isRequired config;
     isVisible := isVisible config; isPassword := Some true;
     showConditions := showConditions config; dependsOn := dependsOn config |}.

Definition setOptions (opts : list SelectOption) (config : FieldConfig)
  : FieldConfig :=
  {| name := name config; type := type config; label := label config;
     placeholder := placeholder config; description := description config;
     options := Some opts; isRequired := isRequired config;
     isVisible := isVisible config; isPassword := isPassword config;
     showConditions := showConditions config; dependsOn := dependsOn config |}.

Definition setShowConditions (cs : list Condition) (config : FieldConfig)
  : FieldConfig :=
  {| name := name config; type := type config; label := label config;
     placeholder := placeholder config; description := description config;
     options := options config; isRequired := isRequired config;
     isVisible := isVisible config; isPassword := isPassword config;
     showConditions := Some cs; dependsOn := dependsOn config |}.

Definition setLabel (text : string) (config : FieldConfig) : FieldConfig :=
  {| name := name config; type := type config; label := Some text;
     placeholder := placeholder config; description := description config;
     options := options config; isRequired := isRequired config;
     isVisible := isVisible config; isPassword := isPassword config;
     showConditions := showConditions config; dependsOn := dependsOn config |}.

(** The password placeholder and flag, or the generic placeholder. *)
Definition passwordOrFieldPlaceholder (fieldName : string) (config : FieldConfig)
  : FieldConfig :=
  if namesPassword fieldName
  then setIsPassword (setPlaceholder (t (msg "form.password.placeholder") None) config)
  else setPlaceholder (fieldPlaceholder fieldName) config.

(** The chain of [instanceof] tests that sets the type and the properties
    of a field. *)
Definition applyKind (fieldName : string) (fieldSchema : ZodType)
  (config : FieldConfig) : FieldConfig :=
  match fieldSchema with
  | ZodString checks _ =>
      let config := setKind TypeString (negb (isOptional fieldSchema)) config in
      if hasEmailCheck checks
      then setPlaceholder (t (msg "form.email.placeholder") None) config
      else passwordOrFieldPlaceholder fieldName config
  | ZodNumber _ =>
      setPlaceholder (fieldPlaceholder fieldName)
        (setKind TypeNumber (negb (isOptional fieldSchema)) config)
  | ZodBoolean _ => setKind TypeBoolean false config
  | ZodEnum opts _ =>
      setOptions (enumOptions fieldName opts)
        (setKind TypeEnum (negb (isOptional fieldSchema)) config)
  | ZodOptional innerSchema _ =>
      match innerSchema with
      | ZodString _ _ =>
          passwordOrFieldPlaceholder fieldName (setKind TypeString false config)
      | ZodNumber _ =>
          setPlaceholder (fieldPlaceholder fieldName)
            (setKind TypeNumber false config)
      | ZodBoolean _ => setKind TypeBoolean false config
      | ZodEnum opts _ =>
          setOptions (enumOptions fieldName opts) (setKind TypeEnum false config)
      | _ => config
      end
  | ZodOther _ => config
  end.

(** [if (meta && Array.isArray(meta.showConditions))
      config.showConditions = meta.showConditions]. *)
Definition applyMeta (meta : option Meta) (config : FieldConfig) : FieldConfig :=
  match meta with
  | Some m =>
      match Zod.showConditions m with
      | ShowConditionsArray cs => setShowConditions cs config
      | _ => config
      end
  | None => config
  end.

(** The body of the loop over the entries of the shape. *)
Definition fieldConfig (fieldName : string) (fieldSchema : ZodType)
  : Completion FieldConfig :=
  let config := applyKind fieldName fieldSchema (initialConfig fieldName) in
  let* meta := ZodForm.readMeta fieldSchema in
  let config := applyMeta meta config in
  Normal
    (setLabel
       (t {| id := "field." +:+ fieldName;
             defaultMessage := Some (humanize fieldName) |} None)
       config).

(** [Object.entries(shape).forEach(...)], pushing one record per entry. *)
Fixpoint compileShape (shape : list (string * ZodType))
  : Completion (list FieldConfig) :=
  match shape with
  | [] => Normal []
  | (fieldName, fieldSchema) :: rest =>
      let* config := fieldConfig fieldName fieldSchema in
      let* configs := compileShape rest in
      Normal (config :: configs)
  end.

(** [fieldConfigs]: no record unless the schema is an object. *)
Definition fieldConfigs (schema : ZodSchema) : Completion (list FieldConfig) :=
  match schema with
  | ZodObject shape => compileShape shape
  | ZodNotObject => Normal []
  end.

End Compile.

(** [isFieldVisible(config)]. *)
Definition isFieldVisible (watchedValues : gmap string JsValue)
  (config : FieldConfig) : bool :=
  match showConditions config with
  | None => true
  | Some conditions =>
      if Nat.eqb (length conditions) 0 then true
      else forallb (ZodForm.conditionHolds watchedValues) conditions
  end.

End ZodFormConfig.

(** ** The widgets ([Switch.tsx], [Radio.tsx], [Select] of [TextInput.tsx]) *)

Module Components.
Import JS ZodFormConfig.

(** What a field is rendered as, with the properties the form passes. *)
Inductive Widget : Type :=
| TextInputWidget (label placeholder : option string)
    (secureTextEntry : option bool)
| SwitchWidget (label description : option string)
| RadioWidget (label : option string) (options : list SelectOption)
| SelectWidget (label placeholder : option string)
    (options : list SelectOption).

Inductive WidgetKind : Type :=
| KindTextInput
| KindSwitch
| KindRadio
| KindSelect.

Definition widgetKind (w : Widget) : WidgetKind :=
  match w with
  | TextInputWidget _ _ _ => KindTextInput
  | SwitchWidget _ _ => KindSwitch
  | RadioWidget _ _ => KindRadio
  | SelectWidget _ _ _ => KindSelect
  end.

(** [field.onChange(v)] of the controller of field [fieldName]: the form
    values with that field set. *)
Definition onChange (fieldName : string) (v : JsValue)
  (values : gmap string JsValue) : gmap string JsValue :=
  <[ fieldName := v ]> values.

(** The switch: [onPress={() => onChange(!value)}]. *)
Definition switchPress (fieldName : string) (values : gmap string JsValue)
  : gmap string JsValue :=
  onChange fieldName (JsBoolean (negb (truthy (get values fieldName)))) values.

(** [option.value === value]. *)
Definition optionIs (value : JsValue) (option : SelectOption) : bool :=
  strict_equals (JsString (optionValue option)) value.

(** The radio group: the options drawn as selected. *)
Definition radioSelected (options : list SelectOption) (value : JsValue)
  : list bool :=
  map (optionIs value) options.

(** The select: [options.find(option => option.value === value)]. *)
Definition selectedOption (options : list SelectOption) (value : JsValue)
  : option SelectOption :=
  List.find (optionIs value) options.

(** The text of the select button: the label of the selected option, or the
    placeholder, which is [Select an option] when none is passed. *)
Definition selectText (placeholder : option string)
  (options : list SelectOption) (value : JsValue) : string :=
  match selectedOption options value with
  | Some option => optionLabel option
  | None => default "Select an option" placeholder
  end.

(** Pressing an option of the radio group or of the select list:
    [onChange(option.value)]. *)
Definition optionPress (fieldName : string) (option : SelectOption)
  (values : gmap string JsValue) : gmap string JsValue :=
  onChange fieldName (JsString (optionValue option)) values.

End Components.

(** ** Rendering a field *)

Module Render.
Import JS Intl Zod Text ZodFormConfig Components.

(** An entry of [form.formState.errors]. *)
Record FieldError : Type := {
  errorMessage : option string
}.

(** What [renderField] returns for a shown field: the widget, if any, and
    the text of the error line, if any. *)
Record Rendered : Type := {
  widget : option Widget;
  errorLine : option string
}.

Section WithTranslation.

Variable t : MessageDescriptor -> option (gmap string JsValue) -> string.

(** [showFieldErrors && error && (error.message || t({ id: 'error.required' }))]. *)
Definition errorText (showFieldErrors : bool) (error : option FieldError)
  : option string :=
  if showFieldErrors then
    match error with
    | Some e =>
        Some match errorMessage e with
             | Some m =>
                 if String.eqb m "" then t (msg "error.required") None else m
             | None => t (msg "error.required") None
             end
    | None => None
    end
  else None.

(** The radio group up to three options, the select above. *)
Definition choiceWidget (label placeholder : option string)
  (opts : list SelectOption) : Widget :=
  if Nat.leb (length opts) 3 then RadioWidget label opts
  else SelectWidget label placeholder opts.

(** *** The component that compiles field configurations *)

(** The widget of a configuration: the [switch] on [config.type]. *)
Definition configWidget (config : FieldConfig) : option Widget :=
  match type config with
  | TypeString =>
      Some (TextInputWidget (label config) (placeholder config)
              (isPassword config))
  | TypeNumber =>
      Some (TextInputWidget (label config) (placeholder config) None)
  | TypeBoolean => Some (SwitchWidget (label config) (description config))
  | TypeEnum =>
      match options config with
      | None => None
      | Some opts =>
          Some (choiceWidget (label config)
                  (Some (t (msg "form.select.placeholder")
                           (Some {[ "fieldName" :=
                                      match label config with
                                      | Some l => JsString (toLowerCase l)
                                      | None => JsUndefined
                                      end ]})))
                  opts)
      end
  end.

(** [renderField(config)]: nothing for a hidden field. *)
Definition renderConfig (showFieldErrors : bool)
  (watchedValues : gmap string JsValue) (errors : gmap string FieldError)
  (config : FieldConfig) : option Rendered :=
  if negb (ZodFormConfig.isFieldVisible watchedValues config) then None
  else Some {| widget := configWidget config;
               errorLine := errorText showFieldErrors (errors !! name config) |}.

(** *** The component that reads the schema while rendering *)

Definition fieldLabel (fieldName : string) : string :=
  t {| id := "field." +:+ fieldName;
       defaultMessage := Some (humanize fieldName) |} None.

(** [t({ id: `field.${name}.description`, defaultMessage: undefined })]. *)
Definition fieldDescription (fieldName : string) : string :=
  t (msg ("field." +:+ fieldName +:+ ".description")) None.

(** [t({ id: `field.${name}.placeholder`, defaultMessage: undefined })]. *)
Definition schemaPlaceholder (fieldName : string) : string :=
  t (msg ("field." +:+ fieldName +:+ ".placeholder")) None.

(** The widget of one of the four declarations, as both the plain and the
    wrapped branch build it. *)
Definition declarationWidget (fieldName : string) (node : ZodType)
  : option Widget :=
  match node with
  | ZodString _ _ =>
      Some (TextInputWidget (Some (fieldLabel fieldName))
              (Some (schemaPlaceholder fieldName))
              (Some (namesPassword fieldName)))
  | ZodNumber _ =>
      Some (TextInputWidget (Some (fieldLabel fieldName))
              (Some (schemaPlaceholder fieldName)) None)
  | ZodBoolean _ =>
      Some (SwitchWidget (Some (fieldLabel fieldName))
              (Some (fieldDescription fieldName)))
  | ZodEnum opts _ =>
      Some (choiceWidget (Some (fieldLabel fieldName)) None
              (enumOptions t fieldName opts))
  | _ => None
  end.

(** The chain of [instanceof] tests of [renderField({ name, schema })]: a
    declaration, or the declaration wrapped by an optional node, or
    nothing. *)
Definition schemaWidget (fieldName : string) (fieldSchema : ZodType)
  : option Widget :=
  match fieldSchema with
  | ZodOptional innerSchema _ => declarationWidget fieldName innerSchema
  | _ => declarationWidget fieldName fieldSchema
  end.

End WithTranslation.

End Render.

(** ** Values that may be objects

    A field value or a condition literal may also be an object. An object is
    known by its reference, and [===] on two objects compares the
    references, whatever the objects hold. The evaluator is stated again
    over such values; on primitives it is the evaluator of [ZodForm]. *)

Module Heap.
Import JS.

(** A value: a primitive, or the reference of an object of the heap. *)
Inductive Value : Type :=
| Prim (p : JsValue)
| Ref (address : nat).

Record Condition : Type := {
  field : string;
  operator : string;
  value : Value
}.

(** [x === y]: primitives as before, objects by reference. *)
Definition strict_equals (x y : Value) : bool :=
  match x, y with
  | Prim a, Prim b => JS.strict_equals a b
  | Ref a, Ref b => Nat.eqb a b
  | _, _ => false
  end.

(** [String(x)], a plain object giving [[object Object]]. *)
Definition to_string (x : Value) : string :=
  match x with
  | Prim p => JS.to_string p
  | Ref _ => "[object Object]"
  end.

(** [obj[key]], [undefined] when the key is not set. *)
Definition get (obj : gmap string Value) (key : string) : Value :=
  default (Prim JsUndefined) (obj !! key).

(** The callback of [showConditions.every]. *)
Definition conditionHolds (watchedValues : gmap string Value)
  (condition : Condition) : bool :=
  let fieldValue := get watchedValues (field condition) in
  if String.eqb (operator condition) "equals" then
    strict_equals fieldValue (value condition)
  else if String.eqb (operator condition) "notEquals" then
    negb (strict_equals fieldValue (value condition))
  else if String.eqb (operator condition) "contains" then
    match fieldValue with
    | Prim (JsString s) => includes s (to_string (value condition))
    | _ => false
    end
  else if String.eqb (operator condition) "notContains" then
    match fieldValue with
    | Prim (JsString s) => negb (includes s (to_string (value condition)))
    | _ => false
    end
  else if String.eqb (operator condition) "true" then
    strict_equals fieldValue (Prim (JsBoolean true))
  else if String.eqb (operator condition) "false" then
    strict_equals fieldValue (Prim (JsBoolean false))
  else true.

(** [isFieldVisible(showConditions)]. *)
Definition isFieldVisible (watchedValues : gmap string Value)
  (showConditions : list Condition) : bool :=
  if Nat.eqb (length showConditions) 0 then true
  else forallb (conditionHolds watchedValues) showConditions.

(** [isFieldVisible(config)], on the [showConditions] of the configuration. *)
Definition isFieldVisibleConfig (watchedValues : gmap string Value)
  (showConditions : option (list Condition)) : bool :=
  match showConditions with
  | None => true
  | Some conditions => isFieldVisible watchedValues conditions
  end.

(** A condition and a record of primitive values, seen as values. *)
Definition ofCondition (c : Zod.Condition) : Condition :=
  {| field := Zod.field c; operator := Zod.operator c;
     value := Prim (Zod.value c) |}.

Definition ofValues (values : gmap string JsValue) : gmap string Value :=
  Prim <$> values.

(** Deep equality of two values in a heap: the same primitive, or two
    objects, not necessarily the same one, with the same keys set to deeply
    equal values. *)
#[warnings="-register-all"]
Inductive deep_equal (heap : gmap nat (gmap string Value))
  : Value -> Value -> Prop :=
| deep_equal_prim (p : JsValue) : deep_equal heap (Prim p) (Prim p)
| deep_equal_ref (a b : nat) (o1 o2 : gmap string Value) :
    heap !! a = Some o1 ->
    heap !! b = Some o2 ->
    (forall key, option_Forall2 (deep_equal heap) (o1 !! key) (o2 !! key)) ->
    deep_equal heap (Ref a) (Ref b).

(** Deep equality of two records of values. *)
Definition deep_equal_values (heap : gmap nat (gmap string Value))
  (v1 v2 : gmap string Value) : Prop :=
  forall key, option_Forall2 (deep_equal heap) (v1 !! key) (v2 !! key).

(** A primitive value. *)
Definition is_primitive (x : Value) : bool :=
  match x with
  | Prim _ => true
  | Ref _ => false
  end.

(** *** The memoized callback

    [isFieldVisible] is [React.useCallback(fn, [watchedValues])]: a closure
    over the watched values of the render that made it, kept for the next
    render when the watched values are the same object and made anew
    otherwise. The watched values are an object of the heap, known by its
    address; a callback is known by the object it closed over, which it
    reads when it is called. *)

Record Callback : Type := {
  closedOver : nat
}.

Record Memo : Type := {
  memoDependency : nat;
  memoCallback : Callback
}.

Definition useCallback (memo : option Memo) (watchedValues : nat) : Memo :=
  let fresh :=
    {| memoDependency := watchedValues;
       memoCallback := {| closedOver := watchedValues |} |} in
  match memo with
  | Some kept =>
      if Nat.eqb (memoDependency kept) watchedValues then kept else fresh
  | None => fresh
  end.

(** The memo after a series of renders, each with its watched values. *)
Fixpoint renders (memo : option Memo) (watched : list nat) : option Memo :=
  match watched with
  | [] => memo
  | w :: rest => renders (Some (useCallback memo w)) rest
  end.

(** A call of the callback, on the heap of the time of the call. *)
Definition callIsFieldVisible (heap : gmap nat (gmap string Value))
  (callback : Callback) (showConditions : list Condition) : bool :=
  isFieldVisible (default ∅ (heap !! closedOver callback)) showConditions.

End Heap.

(** ** Vocabulary of the properties *)

Module Spec.
Import JS Zod.

(** [search] occurs in [s] as a contiguous piece. *)
Definition occurs_in (search s : string) : Prop :=
  exists before after, s = before +:+ search +:+ after.

(** No metadata can be read from a node: the call throws or returns
    [undefined]. *)
Definition metaUnavailable (node : ZodType) : Prop :=
  metaCall_of node = MetaThrows \/ metaCall_of node = MetaReturns None.

(** The declarations whose configuration is marked required: a text, a
    number or a choice that is not wrapped and whose own [isOptional()]
    answers false. *)
Definition declaredRequired (isOptional : ZodType -> bool) (node : ZodType)
  : bool :=
  match node with
  | ZodString _ _ | ZodNumber _ | ZodEnum _ _ => negb (isOptional node)
  | ZodBoolean _ | ZodOptional _ _ | ZodOther _ => false
  end.

(** The default values after the user has typed [1234] in the confirmation
    field: [password] is [123456], [repeatPassword] is [1234]. *)
Definition mismatchedPasswords : App.FormData := {|
  App.name := App.name App.defaultValues;
  App.email := App.email App.defaultValues;
  App.country := App.country App.defaultValues;
  App.gender := App.gender App.defaultValues;
  App.notifications := App.notifications App.defaultValues;
  App.password := "123456";
  App.repeatPassword := "1234";
  App.newsletter := App.newsletter App.defaultValues;
  App.phoneNumber := App.phoneNumber App.defaultValues;
  App.address := App.address App.defaultValues;
  App.terms := App.terms App.defaultValues
|}.

(** A placeholder name: word characters only. *)
Fixpoint all_word_chars (s : string) : bool :=
  match s with
  | EmptyString => true
  | String c rest => Intl.is_word_char c && all_word_chars rest
  end.

(** A condition [{ field, operator, value }]. *)
Definition cond (f op : string) (v : JsValue) : Condition :=
  {| field := f; operator := op; value := v |}.

End Spec.

(** ** Further vocabulary *)

Module Shape.

(** The character [c] occurs in [s]. *)
Fixpoint has_char (c : ascii) (s : string) : bool :=
  match s with
  | EmptyString => false
  | String a rest => Ascii.eqb a c || has_char c rest
  end.

(** A capital letter occurs in [s]. *)
Fixpoint has_upper (s : string) : bool :=
  match s with
  | EmptyString => false
  | String a rest => Text.is_upper a || has_upper rest
  end.

(** Every character of [s] is an ASCII character. *)
Fixpoint ascii_only (s : string) : bool :=
  match s with
  | EmptyString => true
  | String a rest => Nat.ltb (nat_of_ascii a) 128 && ascii_only rest
  end.

(** The pieces of a list of texts put end to end. *)
Fixpoint concat_all (pieces : list string) : string :=
  match pieces with
  | [] => EmptyString
  | piece :: rest => piece +:+ concat_all rest
  end.

(** The keys of a message table. *)
Definition keys (table : list (string * string)) : list string :=
  map fst table.

(** The kind of widget each declaration is given, one optional wrapper
    being looked through. *)
Definition declaredKind (node : Zod.ZodType) : option Components.WidgetKind :=
  let kindOf n :=
    match n with
    | Zod.ZodString _ _ | Zod.ZodNumber _ => Some Components.KindTextInput
    | Zod.ZodBoolean _ => Some Components.KindSwitch
    | Zod.ZodEnum opts _ =>
        Some (if Nat.leb (length opts) 3 then Components.KindRadio
              else Components.KindSelect)
    | _ => None
    end in
  match node with
  | Zod.ZodOptional inner _ => kindOf inner
  | _ => kindOf node
  end.

(** The text declarations whose configuration is flagged as a password:
    named after a password, and either wrapped or without an email check. *)
Definition flaggedPassword (fieldName : string) (node : Zod.ZodType) : bool :=
  match node with
  | Zod.ZodString checks _ =>
      negb (ZodFormConfig.hasEmailCheck checks)
      && ZodFormConfig.namesPassword fieldName
  | Zod.ZodOptional (Zod.ZodString _ _) _ =>
      ZodFormConfig.namesPassword fieldName
  | _ => false
  end.

(** The options a declaration lists: those of a choice, one optional
    wrapper being looked through. *)
Definition declaredOptions (node : Zod.ZodType) : option (list string) :=
  match node with
  | Zod.ZodEnum opts _ | Zod.ZodOptional (Zod.ZodEnum opts _) _ => Some opts
  | _ => None
  end.

(** The texts a widget is given: label, placeholder, description and
    option labels, those that are passed. *)
Definition widgetTexts (w : Components.Widget) : list string :=
  let text (o : option string) :=
    match o with Some x => [x] | None => [] end in
  match w with
  | Components.TextInputWidget l p _ => text l ++ text p
  | Components.SwitchWidget l d => text l ++ text d
  | Components.RadioWidget l opts =>
      text l ++ map ZodFormConfig.optionLabel opts
  | Components.SelectWidget l p opts =>
      text l ++ text p ++ map ZodFormConfig.optionLabel opts
  end.

End Shape.

(** * Properties *)

Import JS Zod Completion Spec.

(** ** Texts *)

Lemma append_cons (a : ascii) (s t : string) :
  String a s +:+ t = String a (s +:+ t).
Proof. reflexivity. Qed.

Lemma append_empty_l (s : string) : "" +:+ s = s.
Proof. reflexivity. Qed.

Lemma append_empty_r (s : string) : s +:+ "" = s.
Proof.
  induction s as [|a s IH]; [reflexivity | now rewrite append_cons, IH].
Qed.

Lemma append_assoc (a b c : string) : (a +:+ b) +:+ c = a +:+ (b +:+ c).
Proof.
  induction a as [|x a IH]; [reflexivity | now rewrite !append_cons, IH].
Qed.

Lemma prefix_occurs (search s : string) :
  String.prefix search s = true <-> exists after, s = search +:+ after.
Proof.
  revert s. induction search as [|a search IH]; intros s.
  - destruct s; simpl; (split; [intros _; eexists; reflexivity | reflexivity]).
  - destruct s as [|b s]; simpl.
    + split; [discriminate | intros [after H]; discriminate].
    + destruct (ascii_dec a b) as [->|Hne].
      * rewrite IH. split; intros [after H]; exists after.
        -- now rewrite append_cons, H.
        -- rewrite append_cons in H. now injection H.
      * split; [discriminate | intros [after H]].
        rewrite append_cons in H. injection H as H1 _. now symmetry in H1.
Qed.

Lemma includes_unfold (s search : string) :
  includes s search
  = String.prefix search s
    || match s with
       | EmptyString => false
       | String _ rest => includes rest search
       end.
Proof. destruct s; reflexivity. Qed.

(** [includes] finds exactly the occurrences. *)
Lemma includes_occurs (s search : string) :
  includes s search = true <-> occurs_in search s.
Proof.
  split.
  - induction s as [|a s IH]; rewrite includes_unfold, orb_true_iff;
      intros [H|H].
    + apply prefix_occurs in H as [after H]. now exists "", after.
    + discriminate.
    + apply prefix_occurs in H as [after H]. now exists "", after.
    + destruct (IH H) as (before & after & ->).
      now exists (String a before), after.
  - intros (before & after & ->). induction before as [|a before IH].
    + rewrite append_empty_l.
      assert (H : String.prefix search (search +:+ after) = true)
        by (apply prefix_occurs; now exists after).
      rewrite includes_unfold, H. reflexivity.
    + rewrite append_cons, includes_unfold, IH. apply orb_true_r.
Qed.

Lemma includes_not_occurs (s search : string) :
  includes s search = false <-> ~ occurs_in search s.
Proof.
  rewrite <- includes_occurs. destruct (includes s search); split;
    congruence.
Qed.

(** ** Strict equality *)

Lemma strict_equals_eq (x y : JsValue) :
  strict_equals x y = true <-> x = y /\ x <> JsNaN.
Proof.
  destruct x, y; simpl; split; try discriminate; try (intros [H _]; discriminate);
    try (intros [_ H]; congruence); try (intros _; split; congruence).
  - intros H. apply Bool.eqb_prop in H. subst. split; congruence.
  - intros [H _]. injection H as ->. apply Bool.eqb_reflx.
  - intros H. apply Z.eqb_eq in H. subst. split; congruence.
  - intros [H _]. injection H as ->. apply Z.eqb_refl.
  - intros H. apply String.eqb_eq in H. subst. split; congruence.
  - intros [H _]. injection H as ->. apply String.eqb_refl.
Qed.

Lemma strict_equals_true (x : JsValue) :
  strict_equals x (JsBoolean true) = true <-> x = JsBoolean true.
Proof.
  rewrite strict_equals_eq. split; [now intros [H _] | intros ->].
  split; congruence.
Qed.

Lemma strict_equals_false (x : JsValue) :
  strict_equals x (JsBoolean false) = true <-> x = JsBoolean false.
Proof.
  rewrite strict_equals_eq. split; [now intros [H _] | intros ->].
  split; congruence.
Qed.

(** ** The visibility evaluator *)

Lemma isFieldVisible_forallb (values : gmap string JsValue)
  (rule : list Condition) :
  ZodForm.isFieldVisible values rule
  = forallb (ZodForm.conditionHolds values) rule.
Proof. destruct rule; reflexivity. Qed.

Lemma isFieldVisible_Forall (values : gmap string JsValue)
  (rule : list Condition) :
  ZodForm.isFieldVisible values rule = true
  <-> Forall (fun c => ZodForm.conditionHolds values c = true) rule.
Proof.
  rewrite isFieldVisible_forallb, forallb_forall, Forall_forall.
  split; intros H c Hc; apply H; now apply list_elem_of_In.
Qed.

Lemma isFieldVisible_config (values : gmap string JsValue)
  (config : ZodFormConfig.FieldConfig) :
  ZodFormConfig.isFieldVisible values config
  = match ZodFormConfig.showConditions config with
    | None => true
    | Some rule => ZodForm.isFieldVisible values rule
    end.
Proof. reflexivity. Qed.

Lemma conditionHolds_unknown (values : gmap string JsValue) (c : Condition) :
  operator c ∉ operators -> ZodForm.conditionHolds values c = true.
Proof.
  intros Hop. unfold ZodForm.conditionHolds. cbv zeta.
  repeat match goal with
         | |- context [String.eqb (operator c) ?label] =>
             destruct (String.eqb_spec (operator c) label) as [E|_];
             [exfalso; apply Hop; rewrite E; unfold operators;
              repeat constructor |]
         end.
  reflexivity.
Qed.

(** C5. An empty rule shows the field; any rule shows it exactly when each
    of its conditions holds; [equals] holds exactly when the watched value
    is strictly equal to the condition value and [notEquals] exactly when it
    is not; [contains] and [notContains] hold only for a watched text, in
    which the condition value, as a text, occurs and does not occur. The
    evaluator over a field configuration agrees, a configuration without
    conditions being shown. *)
Theorem visibility_rule_semantics (values : gmap string JsValue) :
  ZodForm.isFieldVisible values [] = true
  /\ (forall rule,
        ZodForm.isFieldVisible values rule = true
        <-> Forall (fun c => ZodForm.conditionHolds values c = true) rule)
  /\ (forall f v,
        ZodForm.conditionHolds values (cond f "equals" v) = true
        <-> strict_equals (get values f) v = true)
  /\ (forall f v,
        ZodForm.conditionHolds values (cond f "notEquals" v) = true
        <-> strict_equals (get values f) v = false)
  /\ (forall f v,
        ZodForm.conditionHolds values (cond f "contains" v) = true
        <-> exists s, get values f = JsString s /\ occurs_in (to_string v) s)
  /\ (forall f v,
        ZodForm.conditionHolds values (cond f "notContains" v) = true
        <-> exists s, get values f = JsString s /\ ~ occurs_in (to_string v) s)
  /\ (forall config,
        ZodFormConfig.isFieldVisible values config = true
        <-> match ZodFormConfig.showConditions config with
            | None => True
            | Some rule =>
                Forall (fun c => ZodForm.conditionHolds values c = true) rule
            end).
Proof.
  split; [reflexivity|].
  split; [intros rule; apply isFieldVisible_Forall|].
  split; [intros f v; reflexivity|].
  split.
  { intros f v.
    change (ZodForm.conditionHolds values (cond f "notEquals" v))
      with (negb (strict_equals (get values f) v)).
    apply negb_true_iff. }
  split.
  { intros f v.
    change (ZodForm.conditionHolds values (cond f "contains" v))
      with (is_string (get values f)
            && match get values f with
               | JsString s => string_includes s v
               | _ => false
               end).
    destruct (get values f) as [| |b|n| |s]; simpl;
      try (split; [discriminate | intros (s' & H & _); discriminate]).
    unfold string_includes. rewrite includes_occurs. split.
    - intros H. now exists s.
    - intros (s' & H & Hocc). now injection H as ->. }
  split.
  { intros f v.
    change (ZodForm.conditionHolds values (cond f "notContains" v))
      with (is_string (get values f)
            && match get values f with
               | JsString s => negb (string_includes s v)
               | _ => false
               end).
    destruct (get values f) as [| |b|n| |s]; simpl;
      try (split; [discriminate | intros (s' & H & _); discriminate]).
    unfold string_includes. rewrite negb_true_iff, includes_not_occurs. split.
    - intros H. now exists s.
    - intros (s' & H & Hocc). now injection H as ->. }
  intros config. rewrite isFieldVisible_config.
  destruct (ZodFormConfig.showConditions config) as [rule|].
  - apply isFieldVisible_Forall.
  - split; [intros _; exact I | reflexivity].
Qed.

(** C1 (as the code has it). The evaluator's operators for the two boolean
    tests are spelled [true] and [false]: a condition with operator [true]
    holds exactly when the watched value is the boolean true, one with
    operator [false] exactly when it is the boolean false, and both belong
    to the operators of the condition type. The spellings [isTrue] and
    [isFalse] are not among them; a condition written with either holds
    whatever the watched value is. *)
Theorem boolean_operators (values : gmap string JsValue) (f : string)
  (v : JsValue) :
  (ZodForm.conditionHolds values (cond f "true" v) = true
   <-> get values f = JsBoolean true)
  /\ (ZodForm.conditionHolds values (cond f "false" v) = true
      <-> get values f = JsBoolean false)
  /\ (ZodForm.isFieldVisible values [cond f "true" v] = true
      <-> get values f = JsBoolean true)
  /\ (ZodForm.isFieldVisible values [cond f "false" v] = true
      <-> get values f = JsBoolean false)
  /\ ("true" ∈ operators) /\ ("false" ∈ operators)
  /\ ("isTrue" ∉ operators) /\ ("isFalse" ∉ operators)
  /\ ZodForm.conditionHolds values (cond f "isTrue" v) = true
  /\ ZodForm.conditionHolds values (cond f "isFalse" v) = true.
Proof.
  assert (Ht : ZodForm.conditionHolds values (cond f "true" v) = true
               <-> get values f = JsBoolean true)
    by apply strict_equals_true.
  assert (Hf : ZodForm.conditionHolds values (cond f "false" v) = true
               <-> get values f = JsBoolean false)
    by apply strict_equals_false.
  split; [exact Ht|]. split; [exact Hf|].
  split; [now rewrite isFieldVisible_Forall, Forall_singleton|].
  split; [now rewrite isFieldVisible_Forall, Forall_singleton|].
  repeat split.
  - unfold operators. repeat constructor.
  - unfold operators. repeat constructor.
  - unfold operators. rewrite !elem_of_cons, elem_of_nil.
    intros H. repeat destruct H as [H|H]; discriminate || exact H.
  - unfold operators. rewrite !elem_of_cons, elem_of_nil.
    intros H. repeat destruct H as [H|H]; discriminate || exact H.
Qed.

(** C1, as stated, fails: with the watched value false, the condition with
    operator [isTrue] holds all the same. *)
Lemma isTrue_operator_counterexample :
  let values : gmap string JsValue := {[ "hasAddress" := JsBoolean false ]} in
  let c := cond "hasAddress" "isTrue" JsUndefined in
  ~ (ZodForm.conditionHolds values c = true
     <-> get values (field c) = JsBoolean true).
Proof.
  intros values c [H _]. specialize (H eq_refl). vm_compute in H.
  discriminate.
Qed.

(** C6. A condition whose operator is none of the case labels holds, so a
    rule made of such conditions shows the field under any values. *)
Theorem unknown_operator_fail_open (values : gmap string JsValue)
  (rule : list Condition) :
  Forall (fun c => operator c ∉ operators) rule ->
  Forall (fun c => ZodForm.conditionHolds values c = true) rule
  /\ ZodForm.isFieldVisible values rule = true
  /\ (forall config,
        ZodFormConfig.showConditions config = Some rule ->
        ZodFormConfig.isFieldVisible values config = true).
Proof.
  intros Hrule.
  assert (H : Forall (fun c => ZodForm.conditionHolds values c = true) rule).
  { eapply Forall_impl; [exact Hrule|]. intros c. apply conditionHolds_unknown. }
  split; [exact H|]. split; [now apply isFieldVisible_Forall|].
  intros config Hconfig. rewrite isFieldVisible_config, Hconfig.
  now apply isFieldVisible_Forall.
Qed.

Lemma unknown_operator_fail_open_witness :
  let rule := [cond "age" ">=" (JsNumber 18)] in
  Forall (fun c => operator c ∉ operators) rule
  /\ ZodForm.isFieldVisible {[ "age" := JsNumber 3 ]} rule = true.
Proof.
  intros rule.
  assert (Hrule : Forall (fun c => operator c ∉ operators) rule).
  { repeat constructor. unfold operators. simpl.
    rewrite !elem_of_cons, elem_of_nil.
    intros H. repeat destruct H as [H|H]; discriminate || exact H. }
  split; [exact Hrule|].
  exact (proj1 (proj2 (unknown_operator_fail_open _ rule Hrule))).
Defined.

(** ** Visibility and the values it reads *)

Lemma heap_conditionHolds_agree (v1 v2 : gmap string Heap.Value)
  (c : Heap.Condition) :
  Heap.get v1 (Heap.field c) = Heap.get v2 (Heap.field c) ->
  Heap.conditionHolds v1 c = Heap.conditionHolds v2 c.
Proof. intros H. unfold Heap.conditionHolds. cbv zeta. now rewrite H. Qed.

Lemma heap_isFieldVisible_forallb (values : gmap string Heap.Value)
  (rule : list Heap.Condition) :
  Heap.isFieldVisible values rule
  = forallb (Heap.conditionHolds values) rule.
Proof. destruct rule; reflexivity. Qed.

Lemma heap_isFieldVisible_agree (v1 v2 : gmap string Heap.Value)
  (rule : list Heap.Condition) :
  Forall (fun c => Heap.get v1 (Heap.field c) = Heap.get v2 (Heap.field c))
    rule ->
  Heap.isFieldVisible v1 rule = Heap.isFieldVisible v2 rule.
Proof.
  rewrite !heap_isFieldVisible_forallb.
  induction 1 as [|c rule Hc _ IH]; simpl; [reflexivity|].
  now rewrite (heap_conditionHolds_agree v1 v2 c Hc), IH.
Qed.

(** Deeply equal records hold the same value wherever one of them holds a
    primitive. *)
Lemma deep_equal_primitive (heap : gmap nat (gmap string Heap.Value))
  (v1 v2 : gmap string Heap.Value) (key : string) :
  Heap.deep_equal_values heap v1 v2 ->
  Heap.is_primitive (Heap.get v1 key) = true ->
  Heap.get v1 key = Heap.get v2 key.
Proof.
  intros Heq Hprim. specialize (Heq key). unfold Heap.get in *.
  destruct Heq as [x y Hxy|]; [|reflexivity]. simpl in *.
  destruct Hxy; [reflexivity | discriminate].
Qed.

Lemma heap_get_ofValues (values : gmap string JsValue) (key : string) :
  Heap.get (Heap.ofValues values) key = Heap.Prim (get values key).
Proof.
  unfold Heap.get, Heap.ofValues, get. rewrite lookup_fmap.
  now destruct (values !! key).
Qed.

Lemma heap_conditionHolds_ofValues (values : gmap string JsValue)
  (c : Condition) :
  Heap.conditionHolds (Heap.ofValues values) (Heap.ofCondition c)
  = ZodForm.conditionHolds values c.
Proof.
  unfold Heap.conditionHolds, ZodForm.conditionHolds. cbv zeta.
  rewrite heap_get_ofValues.
  cbn [Heap.ofCondition Heap.field Heap.operator Heap.value].
  repeat match goal with
         | |- context [String.eqb (operator c) ?label] =>
             destruct (String.eqb (operator c) label)
         end;
    try reflexivity; now destruct (get values (field c)).
Qed.

Lemma useCallback_closes_over (memo : option Heap.Memo) (w : nat) :
  (forall kept,
      memo = Some kept ->
      Heap.closedOver (Heap.memoCallback kept) = Heap.memoDependency kept) ->
  Heap.closedOver (Heap.memoCallback (Heap.useCallback memo w)) = w
  /\ Heap.memoDependency (Heap.useCallback memo w) = w.
Proof.
  intros Hkept. unfold Heap.useCallback. cbv zeta.
  destruct memo as [kept|]; [|split; reflexivity].
  destruct (Nat.eqb_spec (Heap.memoDependency kept) w) as [E|_];
    [|split; reflexivity].
  split; [|exact E]. now rewrite (Hkept kept eq_refl).
Qed.

Lemma renders_closes_over (watched : list nat) (memo : option Heap.Memo) :
  (forall kept,
      memo = Some kept ->
      Heap.closedOver (Heap.memoCallback kept) = Heap.memoDependency kept) ->
  forall kept,
    Heap.renders memo watched = Some kept ->
    Heap.closedOver (Heap.memoCallback kept) = Heap.memoDependency kept.
Proof.
  revert memo. induction watched as [|w watched IH]; intros memo Hmemo.
  - exact Hmemo.
  - simpl. apply IH. intros kept [= <-].
    destruct (useCallback_closes_over memo w Hmemo) as [-> ->]. reflexivity.
Qed.

(** C9 (as the code has it). The callback of a render, memoized or not,
    closes over the watched values of that render, so a call answers on the
    values current at the call. The answer depends on the rule and on what
    the watched values hold at the fields the rule references: two records
    that hold the same value there, the same primitive or the same object,
    give the same answer. Two deeply equal records therefore give the same
    answer when the referenced fields hold primitives. Over primitives the
    evaluator is the one of the component, in both its versions. *)
Theorem visibility_reads_referenced_values :
  (forall watched w heap rule,
      Heap.callIsFieldVisible heap
        (Heap.memoCallback (Heap.useCallback (Heap.renders None watched) w))
        rule
      = Heap.isFieldVisible (default ∅ (heap !! w)) rule)
  /\ (forall rule v1 v2,
        Forall (fun c => Heap.get v1 (Heap.field c)
                         = Heap.get v2 (Heap.field c)) rule ->
        Heap.isFieldVisible v1 rule = Heap.isFieldVisible v2 rule
        /\ Heap.isFieldVisibleConfig v1 (Some rule)
           = Heap.isFieldVisibleConfig v2 (Some rule))
  /\ (forall heap rule v1 v2,
        Heap.deep_equal_values heap v1 v2 ->
        Forall (fun c => Heap.is_primitive (Heap.get v1 (Heap.field c)) = true)
          rule ->
        Heap.isFieldVisible v1 rule = Heap.isFieldVisible v2 rule
        /\ Heap.isFieldVisibleConfig v1 (Some rule)
           = Heap.isFieldVisibleConfig v2 (Some rule))
  /\ (forall v1 v2,
        Heap.isFieldVisibleConfig v1 None = Heap.isFieldVisibleConfig v2 None)
  /\ (forall values rule,
        Heap.isFieldVisible (Heap.ofValues values) (map Heap.ofCondition rule)
        = ZodForm.isFieldVisible values rule)
  /\ (forall values config,
        Heap.isFieldVisibleConfig (Heap.ofValues values)
          (map Heap.ofCondition <$> ZodFormConfig.showConditions config)
        = ZodFormConfig.isFieldVisible values config).
Proof.
  assert (Hlift : forall values rule,
             Heap.isFieldVisible (Heap.ofValues values)
               (map Heap.ofCondition rule)
             = ZodForm.isFieldVisible values rule).
  { intros values rule.
    rewrite heap_isFieldVisible_forallb, isFieldVisible_forallb.
    induction rule as [|c rule IH]; [reflexivity|]. simpl.
    now rewrite heap_conditionHolds_ofValues, IH. }
  split; [|split; [|split; [|split; [|split]]]].
  - intros watched w heap rule. unfold Heap.callIsFieldVisible.
    destruct (useCallback_closes_over (Heap.renders None watched) w) as [-> _];
      [|reflexivity].
    apply (renders_closes_over watched None). intros kept H. discriminate.
  - intros rule v1 v2 Hsame. simpl.
    split; now apply heap_isFieldVisible_agree.
  - intros heap rule v1 v2 Heq Hprim.
    assert (Hsame : Forall (fun c => Heap.get v1 (Heap.field c)
                                     = Heap.get v2 (Heap.field c)) rule).
    { eapply Forall_impl; [exact Hprim|]. intros c Hc.
      now apply (deep_equal_primitive heap). }
    simpl. split; now apply heap_isFieldVisible_agree.
  - reflexivity.
  - exact Hlift.
  - intros values config. rewrite isFieldVisible_config.
    destruct (ZodFormConfig.showConditions config) as [rule|];
      [apply Hlift | reflexivity].
Qed.

Lemma visibility_reads_referenced_values_witness :
  let heap : gmap nat (gmap string Heap.Value) :=
    <[ 1 := {[ "city" := Heap.Prim (JsString "Paris") ]} ]>
      {[ 2 := {[ "city" := Heap.Prim (JsString "Paris") ]} ]} in
  let v1 : gmap string Heap.Value :=
    <[ "country" := Heap.Prim (JsString "us") ]> {[ "home" := Heap.Ref 1 ]} in
  let v2 : gmap string Heap.Value :=
    <[ "country" := Heap.Prim (JsString "us") ]> {[ "home" := Heap.Ref 2 ]} in
  let rule :=
    [{| Heap.field := "country"; Heap.operator := "equals";
        Heap.value := Heap.Prim (JsString "us") |}] in
  Heap.deep_equal_values heap v1 v2
  /\ v1 <> v2
  /\ Heap.isFieldVisible v1 rule = Heap.isFieldVisible v2 rule.
Proof.
  intros heap v1 v2 rule.
  assert (Heq : Heap.deep_equal_values heap v1 v2).
  { intros key. unfold v1, v2.
    destruct (decide (key = "country")) as [->|Hc].
    { rewrite !lookup_insert_eq. constructor. constructor. }
    rewrite !lookup_insert_ne by congruence.
    destruct (decide (key = "home")) as [->|Hh].
    - rewrite !lookup_singleton_eq. constructor.
      eapply Heap.deep_equal_ref; [reflexivity | reflexivity |].
      intros k. destruct (decide (k = "city")) as [->|Hk].
      + rewrite !lookup_singleton_eq. constructor. constructor.
      + rewrite !lookup_singleton_ne by congruence. constructor.
    - rewrite !lookup_singleton_ne by congruence. constructor. }
  split; [exact Heq|]. split.
  { intros H. apply (f_equal (fun m => m !! "home")) in H.
    vm_compute in H. discriminate. }
  apply (proj1 (proj2 (proj2 visibility_reads_referenced_values))
           heap rule v1 v2 Heq).
  repeat constructor.
Defined.

(** C9, as stated, fails: two deeply equal records, whose field [home] holds
    two objects with the same content, and a rule that compares [home] with
    the first of the two objects; the field is shown under the first record
    and hidden under the second. *)
Lemma deep_equality_counterexample :
  let heap : gmap nat (gmap string Heap.Value) :=
    <[ 1 := {[ "city" := Heap.Prim (JsString "Paris") ]} ]>
      {[ 2 := {[ "city" := Heap.Prim (JsString "Paris") ]} ]} in
  let v1 : gmap string Heap.Value := {[ "home" := Heap.Ref 1 ]} in
  let v2 : gmap string Heap.Value := {[ "home" := Heap.Ref 2 ]} in
  let rule :=
    [{| Heap.field := "home"; Heap.operator := "equals";
        Heap.value := Heap.Ref 1 |}] in
  Heap.deep_equal_values heap v1 v2
  /\ Heap.isFieldVisible v1 rule = true
  /\ Heap.isFieldVisible v2 rule = false.
Proof.
  intros heap v1 v2 rule. split; [|split; reflexivity].
  intros key. unfold v1, v2.
  destruct (decide (key = "home")) as [->|Hh].
  - rewrite !lookup_singleton_eq. constructor.
    eapply Heap.deep_equal_ref; [reflexivity | reflexivity |].
    intros k. destruct (decide (k = "city")) as [->|Hk].
    + rewrite !lookup_singleton_eq. constructor. constructor.
    + rewrite !lookup_singleton_ne by congruence. constructor.
  - rewrite !lookup_singleton_ne by congruence. constructor.
Qed.

(** ** Reading the metadata of a field *)

Lemma readMeta_returns (fieldSchema : ZodType) :
  exists meta, ZodForm.readMeta fieldSchema = Normal meta.
Proof.
  unfold ZodForm.readMeta, ZodForm.callMeta.
  destruct (metaCall_of fieldSchema) as [|[m|]]; simpl;
    destruct (asOptional fieldSchema) as [inner|]; simpl; eauto;
    destruct (metaCall_of inner) as [|m']; simpl; eauto.
Qed.

Lemma readMeta_unavailable (fieldSchema : ZodType) :
  metaUnavailable fieldSchema ->
  (forall inner, asOptional fieldSchema = Some inner -> metaUnavailable inner) ->
  ZodForm.readMeta fieldSchema = Normal None.
Proof.
  intros Hnode Hinner. unfold ZodForm.readMeta, ZodForm.callMeta.
  destruct (asOptional fieldSchema) as [inner|].
  - specialize (Hinner inner eq_refl).
    destruct Hnode as [-> | ->], Hinner as [-> | ->]; reflexivity.
  - destruct Hnode as [-> | ->]; reflexivity.
Qed.

(** C7. Reading the conditions of a field never throws, whatever the node.
    When no metadata can be read from the node, nor from the wrapped node
    of an optional one, [getShowConditions] returns the empty list, the
    compiled configuration carries no condition, and the field is shown
    under any values. *)
Theorem metadata_fail_open :
  (forall fieldSchema,
      exists conditions,
        ZodForm.getShowConditions fieldSchema = Normal conditions)
  /\ (forall t isOptional fieldName fieldSchema,
        exists config,
          ZodFormConfig.fieldConfig t isOptional fieldName fieldSchema
          = Normal config)
  /\ (forall fieldSchema,
        metaUnavailable fieldSchema ->
        (forall inner,
            asOptional fieldSchema = Some inner -> metaUnavailable inner) ->
        ZodForm.getShowConditions fieldSchema = Normal (ZodForm.Conditions [])
        /\ (forall values, ZodForm.isFieldVisible values [] = true)
        /\ (forall t isOptional fieldName,
              exists config,
                ZodFormConfig.fieldConfig t isOptional fieldName fieldSchema
                = Normal config
                /\ ZodFormConfig.showConditions config = None
                /\ (forall values,
                      ZodFormConfig.isFieldVisible values config = true))).
Proof.
  split; [|split].
  - intros fieldSchema. unfold ZodForm.getShowConditions.
    destruct (readMeta_returns fieldSchema) as [meta ->]. simpl. eauto.
  - intros t isOptional fieldName fieldSchema.
    unfold ZodFormConfig.fieldConfig.
    destruct (readMeta_returns fieldSchema) as [meta ->]. simpl. eauto.
  - intros fieldSchema Hnode Hinner.
    pose proof (readMeta_unavailable fieldSchema Hnode Hinner) as Hmeta.
    split; [|split].
    + unfold ZodForm.getShowConditions. now rewrite Hmeta.
    + reflexivity.
    + intros t isOptional fieldName. unfold ZodFormConfig.fieldConfig.
      rewrite Hmeta.
      simpl. eexists. split; [reflexivity|].
      assert (Hnone : forall c,
                 ZodFormConfig.showConditions
                   (ZodFormConfig.applyKind t isOptional fieldName fieldSchema c)
                 = ZodFormConfig.showConditions c).
      { intros c. destruct fieldSchema as [checks m|m|m|opts m|inner m|m];
          simpl; unfold ZodFormConfig.passwordOrFieldPlaceholder;
          repeat case_match; reflexivity. }
      assert (Hshow : ZodFormConfig.showConditions
                        (ZodFormConfig.applyKind t isOptional fieldName fieldSchema
                           (ZodFormConfig.initialConfig fieldName)) = None)
        by now rewrite Hnone.
      split.
      * exact Hshow.
      * intros values. rewrite isFieldVisible_config. simpl.
        now rewrite Hshow.
Qed.

Lemma metadata_fail_open_witness :
  let node := ZodOptional (ZodString None MetaThrows) (MetaReturns None) in
  metaUnavailable node
  /\ (forall inner, asOptional node = Some inner -> metaUnavailable inner)
  /\ ZodForm.getShowConditions node = Normal (ZodForm.Conditions []).
Proof.
  intros node.
  assert (Hnode : metaUnavailable node) by (right; reflexivity).
  assert (Hinner : forall inner,
             asOptional node = Some inner -> metaUnavailable inner).
  { intros inner H. injection H as <-. left. reflexivity. }
  split; [exact Hnode|]. split; [exact Hinner|].
  exact (proj1 (proj2 (proj2 metadata_fail_open) node Hnode Hinner)).
Defined.

(** ** The required flag *)

Lemma applyMeta_isRequired (meta : option Meta)
  (config : ZodFormConfig.FieldConfig) :
  ZodFormConfig.isRequired (ZodFormConfig.applyMeta meta config)
  = ZodFormConfig.isRequired config
  /\ ZodFormConfig.name (ZodFormConfig.applyMeta meta config)
     = ZodFormConfig.name config.
Proof.
  destruct meta as [m|]; [|split; reflexivity].
  unfold ZodFormConfig.applyMeta.
  destruct (Zod.showConditions m); split; reflexivity.
Qed.

Lemma applyKind_isRequired t (isOptional : ZodType -> bool)
  (fieldName : string) (fieldSchema : ZodType) :
  let config :=
    ZodFormConfig.applyKind t isOptional fieldName fieldSchema
      (ZodFormConfig.initialConfig fieldName) in
  ZodFormConfig.isRequired config = declaredRequired isOptional fieldSchema
  /\ ZodFormConfig.name config = fieldName.
Proof.
  destruct fieldSchema as [checks m|m|m|opts m|inner m|m]; simpl;
    unfold ZodFormConfig.passwordOrFieldPlaceholder;
    repeat case_match; split; reflexivity.
Qed.

Lemma fieldConfig_isRequired t (isOptional : ZodType -> bool)
  (fieldName : string) (fieldSchema : ZodType) :
  exists config,
    ZodFormConfig.fieldConfig t isOptional fieldName fieldSchema = Normal config
    /\ ZodFormConfig.name config = fieldName
    /\ ZodFormConfig.isRequired config = declaredRequired isOptional fieldSchema.
Proof.
  unfold ZodFormConfig.fieldConfig.
  destruct (readMeta_returns fieldSchema) as [meta ->]. simpl.
  eexists. split; [reflexivity|]. simpl.
  destruct (applyMeta_isRequired meta
              (ZodFormConfig.applyKind t isOptional fieldName fieldSchema
                 (ZodFormConfig.initialConfig fieldName))) as [-> ->].
  destruct (applyKind_isRequired t isOptional fieldName fieldSchema) as [-> ->].
  split; reflexivity.
Qed.

(** C4 (as the code has it). Every declared field gets one configuration,
    in declaration order. Its required flag is the negation of what the
    declaration's own [isOptional()] answers when the declaration is a text,
    a number or a choice that is not wrapped: true for a declaration that
    rejects [undefined], false for one that accepts it. It is false for a
    declaration wrapped in the optional modifier, for a boolean one, wrapped
    or not, and for any other node, whatever [isOptional()] would answer. *)
Theorem required_flag t (isOptional : ZodType -> bool) :
  (forall shape,
      exists configs,
        ZodFormConfig.fieldConfigs t isOptional (ZodObject shape)
        = Normal configs
        /\ Forall2
             (fun entry config =>
                ZodFormConfig.name config = fst entry
                /\ ZodFormConfig.isRequired config
                   = declaredRequired isOptional (snd entry))
             shape configs)
  /\ (forall inner m, declaredRequired isOptional (ZodOptional inner m) = false)
  /\ (forall m, declaredRequired isOptional (ZodBoolean m) = false)
  /\ (forall m, declaredRequired isOptional (ZodOther m) = false)
  /\ (forall checks m,
        declaredRequired isOptional (ZodString checks m) = true
        <-> isOptional (ZodString checks m) = false)
  /\ (forall m,
        declaredRequired isOptional (ZodNumber m) = true
        <-> isOptional (ZodNumber m) = false)
  /\ (forall opts m,
        declaredRequired isOptional (ZodEnum opts m) = true
        <-> isOptional (ZodEnum opts m) = false).
Proof.
  split.
  2:{ repeat split; try reflexivity; simpl; intros H;
        try (now apply negb_true_iff in H); now apply negb_true_iff. }
  intros shape. simpl. induction shape as [|[fieldName fieldSchema] shape IH].
  - exists []. split; [reflexivity | constructor].
  - destruct (fieldConfig_isRequired t isOptional fieldName fieldSchema)
      as (config & Hconfig & Hname & Hrequired).
    destruct IH as (configs & Hconfigs & Hall).
    exists (config :: configs). simpl. rewrite Hconfig. simpl.
    rewrite Hconfigs. simpl. split; [reflexivity|].
    constructor; [split; assumption | exact Hall].
Qed.

(** C4, as stated, fails: the boolean field [notifications] is declared
    without the optional modifier, with an [isOptional()] that answers false
    on every node, and its configuration is not required. *)
Lemma required_flag_counterexample :
  let node := ZodBoolean (MetaReturns None) in
  let isOptional := fun _ : ZodType => false in
  asOptional node = None
  /\ isOptional node = false
  /\ exists config,
       ZodFormConfig.fieldConfigs (Intl.formatMessage Intl.LocaleEn)
         isOptional (ZodObject [("notifications", node)]) = Normal [config]
       /\ ZodFormConfig.isRequired config = false.
Proof.
  intros node isOptional. split; [reflexivity|]. split; [reflexivity|].
  eexists. split; [vm_compute; reflexivity | reflexivity].
Qed.

(** ** The validator bundles and the whole-schema refinements *)

Import Validators.

Lemma checkPassword_validation (password : option string) :
  validation PasswordValidator.checkPassword password = true
  <-> exists p, password = Some p /\ 6 <= String.length p.
Proof.
  destruct password as [p|].
  - change (validation PasswordValidator.checkPassword (Some p))
      with (negb (String.eqb p "") && Nat.leb 6 (String.length p)).
    rewrite andb_true_iff, negb_true_iff, Nat.leb_le. split.
    + intros [_ H]. now exists p.
    + intros (p' & H & Hlen). injection H as <-. split; [|exact Hlen].
      destruct p; [simpl in Hlen; lia | reflexivity].
  - split; [discriminate | intros (p & H & _); discriminate].
Qed.

Lemma checkPhoneNumber_validation (phoneNumber : option string) :
  validation PhoneValidator.checkPhoneNumber phoneNumber = true
  <-> exists p, phoneNumber = Some p /\ String.length p = 10.
Proof.
  destruct phoneNumber as [p|].
  - change (validation PhoneValidator.checkPhoneNumber (Some p))
      with (negb (String.eqb p "") && Nat.eqb (String.length p) 10).
    rewrite andb_true_iff, negb_true_iff, Nat.eqb_eq. split.
    + intros [_ H]. now exists p.
    + intros (p' & H & Hlen). injection H as <-. split; [|exact Hlen].
      destruct p; [simpl in Hlen; lia | reflexivity].
  - split; [discriminate | intros (p & H & _); discriminate].
Qed.

(** C2. The password refinement passes exactly when the password is a
    defined text of at least six characters; its issue is placed on
    [repeatPassword]; and the check reads nothing but the password, so the
    confirmation field has no part in it. *)
Theorem password_confirmation_check :
  (forall password,
      validation PasswordValidator.checkPassword password = true
      <-> exists p, password = Some p /\ 6 <= String.length p)
  /\ (forall data,
        App.checkPasswordMatch data = true
        <-> validation PasswordValidator.checkPassword
              (Some (App.password data)) = true)
  /\ (forall data,
        App.checkPasswordMatch data = true
        <-> 6 <= String.length (App.password data))
  /\ (forall t, App.refinementPath (App.passwordRefinement t) = ["repeatPassword"])
  /\ (forall t form data,
        App.runRefinement (App.passwordRefinement t) form data
        = (if App.checkPasswordMatch data then []
           else [{| App.path := ["repeatPassword"];
                    App.message :=
                      errMessage PasswordValidator.checkPassword t |}],
           form))
  /\ (forall data data',
        App.password data = App.password data' ->
        App.checkPasswordMatch data = App.checkPasswordMatch data').
Proof.
  split; [exact checkPassword_validation|].
  split; [intros data; reflexivity|].
  split.
  { intros data. unfold App.checkPasswordMatch.
    rewrite checkPassword_validation. split.
    - intros (p & H & Hlen). now injection H as <-.
    - intros H. now exists (App.password data). }
  split; [reflexivity|].
  split; [reflexivity|].
  intros data data' H. unfold App.checkPasswordMatch. now rewrite H.
Qed.

Lemma password_confirmation_check_witness :
  App.password App.defaultValues = App.password mismatchedPasswords
  /\ App.checkPasswordMatch App.defaultValues
     = App.checkPasswordMatch mismatchedPasswords.
Proof.
  split; [reflexivity|].
  apply (proj2 (proj2 (proj2 (proj2 (proj2 password_confirmation_check))))
           App.defaultValues mismatchedPasswords).
  reflexivity.
Defined.

(** C3 (what the code does). With [password] at [123456] and
    [repeatPassword] at [1234], the whole-schema password check passes and
    no refinement raises an issue; the one issue at [repeatPassword] is the
    one of its own minimum length, and [password] has none. *)
Theorem password_mismatch_scenario (t : Intl.MessageDescriptor -> string)
  (form : option App.UseFormReturn) :
  App.checkPasswordMatch mismatchedPasswords = true
  /\ fst (App.runRefinements (App.refinements t) form mismatchedPasswords) = []
  /\ App.issuesAt "repeatPassword"
       (App.passwordAndRefinementIssues t form mismatchedPasswords)
     = [{| App.path := ["repeatPassword"];
           App.message :=
             t {| Intl.id := "error.password.min";
                  Intl.defaultMessage := None |} |}]
  /\ App.issuesAt "password"
       (App.passwordAndRefinementIssues t form mismatchedPasswords)
     = [].
Proof.
  repeat split.
Qed.

(** C8 (as the code has it). When the country is not [us] the phone
    refinement passes and leaves the form handle as it was: no
    re-validation is requested. When the country is [us] it passes exactly
    when the phone number is a defined text of ten characters, and the
    re-validation of [phoneNumber] is requested from the form handle if
    there is one. Its issue is placed on [phoneNumber]. *)
Theorem phone_check (form : option App.UseFormReturn) (data : App.FormData) :
  (App.country data <> "us" ->
   App.checkPhoneNumberLength form data = (true, form))
  /\ (App.country data = "us" ->
      (fst (App.checkPhoneNumberLength form data) = true
       <-> exists p, App.phoneNumber data = Some p /\ String.length p = 10)
      /\ snd (App.checkPhoneNumberLength form data)
         = App.trigger "phoneNumber" <$> form)
  /\ (forall t, App.refinementPath (App.phoneRefinement t) = ["phoneNumber"])
  /\ (forall t,
        fst (App.runRefinement (App.phoneRefinement t) form data)
        = if fst (App.checkPhoneNumberLength form data) then []
          else [{| App.path := ["phoneNumber"];
                   App.message :=
                     errMessage PhoneValidator.checkPhoneNumber t |}]).
Proof.
  split; [|split; [|split]].
  - intros Hne. unfold App.checkPhoneNumberLength.
    destruct (String.eqb_spec (App.country data) "us");
      [contradiction | reflexivity].
  - intros Hus. unfold App.checkPhoneNumberLength. rewrite Hus. simpl.
    split; [apply checkPhoneNumber_validation | reflexivity].
  - reflexivity.
  - intros t. unfold App.runRefinement.
    change (App.check (App.phoneRefinement t))
      with App.checkPhoneNumberLength.
    destruct (App.checkPhoneNumberLength form data) as [ok form'].
    reflexivity.
Qed.

Lemma phone_check_witness :
  let form := Some {| App.triggered := [] |} in
  App.country App.defaultValues <> "us"
  /\ App.checkPhoneNumberLength form App.defaultValues = (true, form).
Proof.
  intros form.
  assert (H : App.country App.defaultValues <> "us") by discriminate.
  split; [exact H|].
  exact (proj1 (phone_check form App.defaultValues) H).
Defined.

(** C8, as stated, fails: evaluated on the default values, whose country is
    [fr], with a mounted form, the check requests no re-validation. *)
Lemma phone_check_counterexample :
  let form := {| App.triggered := [] |} in
  ~ (exists form',
        snd (App.checkPhoneNumberLength (Some form) App.defaultValues)
        = Some form'
        /\ "phoneNumber" ∈ App.triggered form').
Proof.
  intros form (form' & H & Hin). vm_compute in H. injection H as <-.
  simpl in Hin. now apply elem_of_nil in Hin.
Qed.

(** ** Messages and their placeholders *)

Import Intl.

Lemma length_append (a b : string) :
  String.length (a +:+ b) = String.length a + String.length b.
Proof.
  induction a as [|x a IH]; [reflexivity|]. rewrite append_cons. simpl.
  now rewrite IH.
Qed.

Lemma span_word_split (s w r : string) :
  span_word s = (w, r) -> s = w +:+ r.
Proof.
  revert w r. induction s as [|a s IH]; intros w r; simpl.
  - now intros [= <- <-].
  - destruct (is_word_char a).
    + destruct (span_word s) as [w' r']. intros [= <- <-].
      rewrite append_cons. f_equal. now apply IH.
    + now intros [= <- <-].
Qed.

Lemma match_placeholder_split (s key rest : string) :
  match_placeholder s = Some (key, rest) ->
  s = "{" +:+ key +:+ "}" +:+ rest /\ key <> "".
Proof.
  destruct s as [|c s]; [discriminate|]. unfold match_placeholder.
  destruct (Ascii.eqb_spec c "{") as [->|]; [|discriminate].
  destruct (span_word s) as [w r] eqn:E. apply span_word_split in E.
  destruct w as [|k w]; [discriminate|].
  destruct r as [|c' r']; [discriminate|].
  destruct (Ascii.eqb_spec c' "}") as [->|]; [|discriminate].
  intros [= <- <-]. split; [now rewrite E | discriminate].
Qed.

Lemma match_placeholder_shorter (s key rest : string) :
  match_placeholder s = Some (key, rest) ->
  String.length rest < String.length s.
Proof.
  intros H. apply match_placeholder_split in H as [-> _].
  rewrite !length_append. simpl. lia.
Qed.

Lemma replace_from_step (fuel : nat) replacer (s : string) :
  replace_from (S fuel) replacer s
  = match s with
    | EmptyString => EmptyString
    | String c rest =>
        match match_placeholder s with
        | Some (key, rest') =>
            to_string (replacer ("{" +:+ key +:+ "}") key)
            +:+ replace_from fuel replacer rest'
        | None => String c (replace_from fuel replacer rest)
        end
    end.
Proof. reflexivity. Qed.

(** Any fuel that covers the length of the text gives the same result: the
    scan ends before its fuel does. *)
Lemma replace_from_fuel replacer (fuel fuel' : nat) (s : string) :
  String.length s <= fuel -> String.length s <= fuel' ->
  replace_from fuel replacer s = replace_from fuel' replacer s.
Proof.
  revert fuel' s. induction fuel as [|fuel IH]; intros fuel' s H H'.
  - destruct s; [|simpl in H; lia]. destruct fuel'; reflexivity.
  - destruct fuel' as [|fuel'].
    + destruct s; [reflexivity | simpl in H'; lia].
    + rewrite !replace_from_step. destruct s as [|c rest]; [reflexivity|].
      destruct (match_placeholder (String c rest)) as [[key rest']|] eqn:E.
      * apply match_placeholder_shorter in E. simpl in *.
        f_equal. apply IH; lia.
      * simpl in *. f_equal. apply IH; lia.
Qed.

Lemma replace_placeholders_match replacer (s key rest : string) :
  match_placeholder s = Some (key, rest) ->
  replace_placeholders replacer s
  = to_string (replacer ("{" +:+ key +:+ "}") key)
    +:+ replace_placeholders replacer rest.
Proof.
  intros E. unfold replace_placeholders.
  destruct s as [|c s]; [discriminate|].
  change (String.length (String c s)) with (S (String.length s)).
  rewrite replace_from_step, E. f_equal.
  apply match_placeholder_shorter in E. simpl in E.
  apply replace_from_fuel; lia.
Qed.

Lemma replace_placeholders_copy replacer (c : ascii) (s : string) :
  match_placeholder (String c s) = None ->
  replace_placeholders replacer (String c s)
  = String c (replace_placeholders replacer s).
Proof.
  intros E. unfold replace_placeholders.
  change (String.length (String c s)) with (S (String.length s)).
  now rewrite replace_from_step, E.
Qed.

(** An opening brace ends the run of word characters. *)
Lemma span_word_before_brace (s following : string) :
  span_word (s +:+ String "{" following)
  = (fst (span_word s), snd (span_word s) +:+ String "{" following).
Proof.
  induction s as [|a s IH]; [reflexivity|].
  rewrite append_cons. simpl. destruct (is_word_char a); [|reflexivity].
  rewrite IH. now destruct (span_word s).
Qed.

(** What follows a text, when it starts with an opening brace, changes no
    match that starts inside the text. *)
Lemma match_placeholder_before_brace (c : ascii) (s following : string) :
  match_placeholder (String c s +:+ String "{" following)
  = match match_placeholder (String c s) with
    | Some (key, rest) => Some (key, rest +:+ String "{" following)
    | None => None
    end.
Proof.
  rewrite append_cons. unfold match_placeholder.
  destruct (Ascii.eqb c "{"); [|reflexivity].
  rewrite span_word_before_brace. destruct (span_word s) as [w r]. simpl.
  destruct w as [|k w]; [reflexivity|].
  destruct r as [|c' r']; [reflexivity|].
  rewrite append_cons. now destruct (Ascii.eqb c' "}").
Qed.

Lemma span_word_name (name following : string) :
  all_word_chars name = true ->
  span_word (name +:+ String "}" following) = (name, String "}" following).
Proof.
  induction name as [|a name IH]; [reflexivity|].
  rewrite append_cons. simpl. rewrite andb_true_iff. intros [Ha Hname].
  now rewrite Ha, (IH Hname).
Qed.

Lemma match_placeholder_here (name following : string) :
  all_word_chars name = true -> name <> "" ->
  match_placeholder ("{" +:+ name +:+ "}" +:+ following)
  = Some (name, following).
Proof.
  intros Hword Hne.
  change ("{" +:+ name +:+ "}" +:+ following)
    with (String "{" (name +:+ String "}" following)).
  unfold match_placeholder. rewrite Ascii.eqb_refl, (span_word_name _ _ Hword).
  destruct name; [contradiction | reflexivity].
Qed.

(** The replacement at a placeholder: the text before it and the text after
    it are rewritten on their own, and the placeholder becomes the text of
    what the replacer returns for its name. *)
Lemma replace_placeholders_at replacer (before name after : string) :
  all_word_chars name = true -> name <> "" ->
  replace_placeholders replacer (before +:+ "{" +:+ name +:+ "}" +:+ after)
  = replace_placeholders replacer before
    +:+ to_string (replacer ("{" +:+ name +:+ "}") name)
    +:+ replace_placeholders replacer after.
Proof.
  intros Hword Hne.
  remember (String.length before) as n eqn:Hn.
  revert before Hn. induction n as [n IH] using lt_wf_ind. intros before Hn.
  destruct before as [|c before].
  - rewrite append_empty_l.
    now rewrite (replace_placeholders_match _ _ _ _
                   (match_placeholder_here name after Hword Hne)).
  - change ("{" +:+ name +:+ "}" +:+ after)
      with (String "{" (name +:+ String "}" after)).
    pose proof (match_placeholder_before_brace c before
                  (name +:+ String "}" after)) as Hmatch.
    destruct (match_placeholder (String c before)) as [[key rest]|] eqn:E.
    + rewrite (replace_placeholders_match _ _ _ _ Hmatch).
      rewrite (replace_placeholders_match _ _ _ _ E).
      apply match_placeholder_shorter in E.
      rewrite (IH (String.length rest)); [|lia|reflexivity].
      now rewrite append_assoc.
    + rewrite append_cons in Hmatch |- *.
      rewrite (replace_placeholders_copy _ _ _ Hmatch).
      rewrite (replace_placeholders_copy _ _ _ E).
      simpl in Hn.
      rewrite (IH (String.length before)); [|lia|reflexivity].
      now rewrite append_cons.
Qed.

(** C10. For a message of the active locale with a placeholder and a record
    of values, the placeholder becomes the text of the value set for its
    name when that value is truthy and stays as written otherwise, the text
    on either side being rewritten in the same way; without values the
    message is returned as written. For an unknown key the default message,
    or the key when the default is missing or empty, is returned as it is,
    whatever the values. *)
Theorem formatMessage_placeholders (locale : Locale)
  (descriptor : MessageDescriptor) :
  (forall vars before name after,
      lookup_message (messages locale) (id descriptor)
      = Some (before +:+ "{" +:+ name +:+ "}" +:+ after) ->
      all_word_chars name = true -> name <> "" ->
      formatMessage locale descriptor (Some vars)
      = replace_placeholders (replacer vars) before
        +:+ (if truthy (get vars name) then to_string (get vars name)
             else "{" +:+ name +:+ "}")
        +:+ replace_placeholders (replacer vars) after)
  /\ (forall message,
        lookup_message (messages locale) (id descriptor) = Some message ->
        message <> "" ->
        formatMessage locale descriptor None = message)
  /\ (forall values,
        lookup_message (messages locale) (id descriptor) = None ->
        formatMessage locale descriptor values
        = match defaultMessage descriptor with
          | Some d => if String.eqb d "" then id descriptor else d
          | None => id descriptor
          end).
Proof.
  split; [|split].
  - intros vars before name after Hmessage Hword Hne.
    unfold formatMessage. rewrite Hmessage.
    destruct (String.eqb_spec (before +:+ "{" +:+ name +:+ "}" +:+ after) "")
      as [Hempty|_].
    { apply (f_equal String.length) in Hempty.
      rewrite length_append in Hempty. simpl in Hempty. lia. }
    rewrite (replace_placeholders_at _ _ _ _ Hword Hne).
    unfold replacer at 2. cbv zeta.
    now destruct (truthy (get vars name)).
  - intros message Hmessage Hne. unfold formatMessage. rewrite Hmessage.
    now destruct (String.eqb_spec message "").
  - intros values Hnone. unfold formatMessage. now rewrite Hnone.
Qed.

Lemma formatMessage_placeholders_witness :
  let descriptor :=
    {| id := "form.field.placeholder"; defaultMessage := None |} in
  let vars : gmap string JsValue := {[ "fieldName" := JsString "" ]} in
  lookup_message (messages LocaleEn) (id descriptor)
  = Some ("Enter " +:+ "{" +:+ "fieldName" +:+ "}" +:+ "")
  /\ formatMessage LocaleEn descriptor (Some vars) = "Enter {fieldName}".
Proof.
  intros descriptor vars.
  assert (Hmessage : lookup_message (messages LocaleEn) (id descriptor)
                     = Some ("Enter " +:+ "{" +:+ "fieldName" +:+ "}" +:+ ""))
    by reflexivity.
  split; [exact Hmessage|].
  rewrite (proj1 (formatMessage_placeholders LocaleEn descriptor)
             vars "Enter " "fieldName" "" Hmessage eq_refl);
    [reflexivity | discriminate].
Defined.

(** * Further properties of the code *)

Import Shape.

(** ** Messages *)

Lemma replace_placeholders_empty replacer :
  replace_placeholders replacer "" = "".
Proof. reflexivity. Qed.

Lemma occurs_in_after (x before s : string) :
  occurs_in x s -> occurs_in x (before +:+ s).
Proof.
  intros (b & a & ->). exists (before +:+ b), a. now rewrite append_assoc.
Qed.

(** A replacer that gives back every placeholder of a text leaves the text
    as it is. *)
Lemma replace_placeholders_same replacer (s : string) :
  (forall key,
      occurs_in ("{" +:+ key +:+ "}") s ->
      to_string (replacer ("{" +:+ key +:+ "}") key) = "{" +:+ key +:+ "}") ->
  replace_placeholders replacer s = s.
Proof.
  remember (String.length s) as n eqn:Hn. revert s Hn.
  induction n as [n IH] using lt_wf_ind. intros s Hn Hsame.
  destruct s as [|c s]; [reflexivity|].
  destruct (match_placeholder (String c s)) as [[key rest]|] eqn:E.
  - rewrite (replace_placeholders_match _ _ _ _ E).
    pose proof (match_placeholder_shorter _ _ _ E) as Hshort.
    apply match_placeholder_split in E as [E _].
    rewrite Hsame.
    2:{ exists "", rest. rewrite E. now rewrite !append_assoc. }
    rewrite (IH (String.length rest)); [|lia|reflexivity|].
    + rewrite E. now rewrite !append_assoc.
    + intros k Hk. apply Hsame. rewrite E.
      replace ("{" +:+ key +:+ "}" +:+ rest)
        with (("{" +:+ key +:+ "}") +:+ rest)
        by now rewrite !append_assoc.
      now apply occurs_in_after.
  - rewrite (replace_placeholders_copy _ _ _ E). simpl in Hn.
    rewrite (IH (String.length s)); [reflexivity|lia|reflexivity|].
    intros k Hk. apply Hsame.
    now apply (occurs_in_after _ (String c "")).
Qed.

Lemma replace_placeholders_no_brace replacer (s : string) :
  has_char "{" s = false -> replace_placeholders replacer s = s.
Proof.
  induction s as [|c s IH]; [reflexivity|]. simpl.
  rewrite orb_false_iff. intros [Hc Hs].
  rewrite replace_placeholders_copy; [now rewrite IH|].
  unfold match_placeholder. now rewrite Hc.
Qed.

Lemma known_message (locale : Locale) (descriptor : MessageDescriptor)
  (message : string) values :
  lookup_message (messages locale) (id descriptor) = Some message ->
  message <> "" ->
  formatMessage locale descriptor values
  = match values with
    | Some vs => replace_placeholders (replacer vs) message
    | None => message
    end.
Proof.
  intros Hm Hne. unfold formatMessage. rewrite Hm.
  now destruct (String.eqb_spec message "").
Qed.

(** X1. For a message found in the table, a record of values in which
    the name of every placeholder of the message reads a falsy value (not
    set, or set to the empty text, zero or false) leaves the message exactly
    as written, placeholders included. *)
Theorem formatMessage_no_truthy_value (locale : Locale)
  (descriptor : MessageDescriptor) (message : string)
  (vars : gmap string JsValue) :
  lookup_message (messages locale) (id descriptor) = Some message ->
  message <> "" ->
  (forall key,
      occurs_in ("{" +:+ key +:+ "}") message ->
      truthy (get vars key) = false) ->
  formatMessage locale descriptor (Some vars) = message.
Proof.
  intros Hm Hne Hfalsy. rewrite (known_message _ _ _ _ Hm Hne).
  apply replace_placeholders_same. intros key Hkey.
  unfold replacer. cbv zeta. now rewrite (Hfalsy key Hkey).
Qed.

Lemma formatMessage_no_truthy_value_witness :
  formatMessage LocaleFr (ZodFormConfig.msg "form.select.placeholder")
    (Some {[ "fieldName" := JsString "" ]})
  = "Sélectionnez {fieldName}".
Proof.
  apply (formatMessage_no_truthy_value LocaleFr
           (ZodFormConfig.msg "form.select.placeholder")
           "Sélectionnez {fieldName}" {[ "fieldName" := JsString "" ]});
    [reflexivity | discriminate |].
  intros key _. unfold get.
  destruct (decide (key = "fieldName")) as [->|Hne].
  - now rewrite lookup_singleton_eq.
  - now rewrite lookup_singleton_ne by congruence.
Defined.

(** X2. A message without an opening brace is returned as written whatever
    the values passed with it. *)
Theorem formatMessage_without_brace (locale : Locale)
  (descriptor : MessageDescriptor) (message : string)
  (values : option (gmap string JsValue)) :
  lookup_message (messages locale) (id descriptor) = Some message ->
  message <> "" ->
  has_char "{" message = false ->
  formatMessage locale descriptor values = message.
Proof.
  intros Hm Hne Hbrace. rewrite (known_message _ _ _ _ Hm Hne).
  destruct values; [now apply replace_placeholders_no_brace | reflexivity].
Qed.

Lemma formatMessage_without_brace_witness :
  formatMessage LocaleEn (ZodFormConfig.msg "form.submit")
    (Some {[ "submit" := JsString "x" ]})
  = "Submit Form".
Proof.
  apply (formatMessage_without_brace LocaleEn _ "Submit Form");
    [reflexivity | discriminate | reflexivity].
Defined.

Lemma pretty_N_go_nonempty (x : N) (s : string) :
  s <> "" -> pretty_N_go x s <> "".
Proof.
  revert s. induction (N.lt_wf_0 x) as [x _ IH]. intros s Hs.
  destruct (N.eq_dec x 0%N) as [->|Hx]; [now rewrite pretty_N_go_0|].
  rewrite pretty_N_go_step by lia. apply IH; [|discriminate].
  apply N.div_lt; lia.
Qed.

Lemma pretty_Z_nonempty (n : Z) : pretty n <> "".
Proof.
  destruct n as [|p|p]; [discriminate| |discriminate].
  unfold pretty, pretty_Z, pretty, pretty_positive, pretty, pretty_N.
  destruct (decide (N.pos p = 0%N)); [discriminate|].
  rewrite pretty_N_go_step by lia. now apply pretty_N_go_nonempty.
Qed.

Lemma truthy_to_string (v : JsValue) : truthy v = true -> to_string v <> "".
Proof.
  destruct v as [| |[|]|n| |s]; simpl; try discriminate.
  - intros _. apply pretty_Z_nonempty.
  - rewrite negb_true_iff. intros H. now apply String.eqb_neq in H.
Qed.

Lemma replace_placeholders_nonempty (vars : gmap string JsValue)
  (s : string) :
  s <> "" -> replace_placeholders (replacer vars) s <> "".
Proof.
  destruct s as [|c s]; [contradiction|]. intros _.
  destruct (match_placeholder (String c s)) as [[key rest]|] eqn:E.
  - rewrite (replace_placeholders_match _ _ _ _ E).
    assert (Hne : to_string (replacer vars ("{" +:+ key +:+ "}") key) <> "").
    { unfold replacer. cbv zeta.
      destruct (truthy (get vars key)) eqn:Ht;
        [now apply truthy_to_string | discriminate]. }
    destruct (to_string (replacer vars ("{" +:+ key +:+ "}") key));
      [contradiction | discriminate].
  - rewrite (replace_placeholders_copy _ _ _ E). discriminate.
Qed.

Lemma formatMessage_result_nonempty (locale : Locale)
  (descriptor : MessageDescriptor) (values : option (gmap string JsValue)) :
  id descriptor <> "" ->
  formatMessage locale descriptor values <> "".
Proof.
  intros Hid. unfold formatMessage.
  assert (Hfallback : fallbackMessage descriptor <> "").
  { unfold fallbackMessage. destruct (defaultMessage descriptor) as [d|];
      [|exact Hid]. now destruct (String.eqb_spec d ""). }
  destruct (lookup_message (messages locale) (id descriptor)) as [m|];
    [|exact Hfallback].
  destruct (String.eqb_spec m "") as [|Hm]; [exact Hfallback|].
  destruct values as [vs|]; [now apply replace_placeholders_nonempty | exact Hm].
Qed.

(** X3. Whatever the locale, the default message and the values, a
    descriptor with a non-empty key never formats to the empty text. *)
Theorem formatMessage_nonempty (locale : Locale)
  (descriptor : MessageDescriptor) (values : option (gmap string JsValue)) :
  id descriptor <> "" ->
  formatMessage locale descriptor values <> "".
Proof. apply formatMessage_result_nonempty. Qed.

Lemma formatMessage_nonempty_witness :
  formatMessage LocaleEn
    {| id := "field.zip"; defaultMessage := Some "" |} (Some ∅) <> "".
Proof.
  apply (formatMessage_nonempty LocaleEn
           {| id := "field.zip"; defaultMessage := Some "" |} (Some ∅)).
  discriminate.
Defined.

Lemma lookup_message_keys (table : list (string * string)) (key : string) :
  is_Some (lookup_message table key) <-> In key (keys table).
Proof.
  induction table as [|[k m] table IH]; simpl.
  - split; [intros [x H]; discriminate | contradiction].
  - destruct (String.eqb_spec k key) as [->|Hne].
    + split; [now left | now eexists].
    + rewrite IH. split; [now right | now intros [H|H]].
Qed.

(** X4. The French table translates every key of the English one but
    [error.password.length], and has no key of its own; so under the French
    locale the message of the password bundle is that key, untranslated. *)
Theorem french_table_coverage :
  (forall key,
      is_Some (lookup_message fr key) -> is_Some (lookup_message en key))
  /\ (forall key,
        is_Some (lookup_message en key) ->
        is_Some (lookup_message fr key) \/ key = "error.password.length")
  /\ lookup_message fr "error.password.length" = None
  /\ errMessage PasswordValidator.checkPassword
       (fun d => formatMessage LocaleFr d None)
     = "error.password.length".
Proof.
  assert (Hsub : forall l1 l2 : list string,
             forallb (fun k => existsb (String.eqb k) l2) l1 = true ->
             forall key, In key l1 -> In key l2).
  { intros l1 l2 H key Hin. rewrite forallb_forall in H.
    specialize (H key Hin). apply existsb_exists in H as (k & Hk & E).
    apply String.eqb_eq in E. now subst. }
  split; [|split; [|split]].
  - intros key. rewrite !lookup_message_keys. apply Hsub. vm_compute.
    reflexivity.
  - intros key. rewrite !lookup_message_keys. intros Hin.
    apply (Hsub _ ("error.password.length" :: keys fr)) in Hin;
      [|vm_compute; reflexivity].
    destruct Hin as [<-|Hin]; [now right | now left].
  - reflexivity.
  - reflexivity.
Qed.

(** ** Labels made from field names *)

Import Text.

Lemma concat_all_cons (piece : string) (rest : list string) :
  concat_all (piece :: rest) = piece +:+ concat_all rest.
Proof. reflexivity. Qed.

Lemma splitBeforeCapitals_shape (s : string) :
  exists first others,
    splitBeforeCapitals s = first :: others
    /\ concat_all (first :: others) = s
    /\ (first = "" -> s = "")
    /\ Forall (fun piece => starts_with_upper piece = true) others
    /\ Forall (fun piece =>
                 match piece with
                 | EmptyString => True
                 | String _ rest => has_upper rest = false
                 end) (first :: others).
Proof.
  induction s as [|c s IH].
  - exists "", []. repeat split; constructor; [exact I | constructor].
  - destruct IH as (first & others & Hsplit & Hcat & Hempty & Hupper & Htail).
    cbn [splitBeforeCapitals]. rewrite Hsplit.
    assert (Hfirst : starts_with_upper first = starts_with_upper s).
    { destruct first as [|a first]; [now rewrite (Hempty eq_refl)|].
      rewrite <- Hcat. reflexivity. }
    destruct (starts_with_upper s) eqn:Es.
    + exists (String c ""), (first :: others). split; [reflexivity|].
      split; [now rewrite concat_all_cons, Hcat|]. split; [discriminate|].
      split; [constructor; assumption|].
      constructor; [reflexivity | exact Htail].
    + exists (String c first), others. split; [reflexivity|].
      split.
      { rewrite concat_all_cons in Hcat |- *. now rewrite append_cons, Hcat. }
      split; [discriminate|].
      split; [exact Hupper|].
      inversion Htail as [|? ? Hhead Hrest]; subst.
      constructor; [|exact Hrest].
      destruct first as [|a first]; [reflexivity|].
      simpl in Hfirst |- *. now rewrite Hfirst, Hhead.
Qed.

(** X5. Cutting a field name before its capitals loses nothing: the pieces
    put end to end are the name. Every piece after the first starts with a
    capital, and no piece has a capital after its first character. *)
Theorem splitBeforeCapitals_pieces (fieldName : string) :
  concat_all (splitBeforeCapitals fieldName) = fieldName
  /\ Forall (fun piece => starts_with_upper piece = true)
       (tail (splitBeforeCapitals fieldName))
  /\ Forall (fun piece =>
               match piece with
               | EmptyString => True
               | String _ rest => has_upper rest = false
               end) (splitBeforeCapitals fieldName).
Proof.
  destruct (splitBeforeCapitals_shape fieldName)
    as (first & others & -> & Hcat & _ & Hupper & Htail).
  repeat split; assumption.
Qed.

Lemma lower_char_not_upper (c : ascii) : is_upper (lower_char c) = false.
Proof.
  unfold lower_char. destruct (is_upper c) eqn:E; [|exact E].
  unfold is_upper in *. rewrite nat_ascii_embedding.
  - apply andb_true_iff in E as [H1 H2].
    apply Nat.leb_le in H1. apply Nat.leb_le in H2.
    apply andb_false_iff. right. apply Nat.leb_gt. lia.
  - apply andb_true_iff in E as [H1 H2]. apply Nat.leb_le in H2. lia.
Qed.

Lemma toLowerCase_no_upper (s : string) : has_upper (toLowerCase s) = false.
Proof.
  induction s as [|c s IH]; [reflexivity|]. simpl.
  now rewrite lower_char_not_upper, IH.
Qed.

Lemma toLowerCase_fixed (s : string) :
  has_upper s = false -> toLowerCase s = s.
Proof.
  induction s as [|c s IH]; [reflexivity|]. simpl.
  rewrite orb_false_iff. intros [Hc Hs]. unfold lower_char.
  now rewrite Hc, (IH Hs).
Qed.

(** X6. The default label of a field has no capital letter after its first
    character, whatever the field name. *)
Theorem humanize_lower_tail (fieldName : string) :
  match humanize fieldName with
  | EmptyString => True
  | String _ rest => has_upper rest = false
  end.
Proof.
  unfold humanize.
  pose proof (toLowerCase_no_upper (join " " (splitBeforeCapitals fieldName)))
    as Hlow.
  destruct (toLowerCase (join " " (splitBeforeCapitals fieldName)))
    as [|c rest]; [exact I|].
  simpl in Hlow. apply orb_false_iff in Hlow as [_ Hrest].
  simpl. now destruct (is_word_char c).
Qed.

Lemma splitBeforeCapitals_no_upper (s : string) :
  has_upper s = false -> splitBeforeCapitals s = [s].
Proof.
  induction s as [|c s IH]; [reflexivity|]. simpl.
  rewrite orb_false_iff. intros [_ Hs]. rewrite (IH Hs).
  destruct s as [|a s]; [reflexivity|]. simpl in Hs |- *.
  apply orb_false_iff in Hs as [-> _]. reflexivity.
Qed.

Lemma lower_is_word (c : ascii) : is_lower c = true -> is_word_char c = true.
Proof.
  unfold is_lower, is_word_char. intros H. rewrite H.
  now rewrite !orb_true_r.
Qed.

(** X7. For a field name written in ASCII characters without capital
    letters, the default label is the name with its first letter
    capitalized. *)
Theorem humanize_plain_name (fieldName : string) :
  ascii_only fieldName = true ->
  has_upper fieldName = false ->
  humanize fieldName = capitalize fieldName.
Proof.
  intros _ Hplain. unfold humanize.
  rewrite (splitBeforeCapitals_no_upper _ Hplain). simpl.
  rewrite (toLowerCase_fixed _ Hplain).
  destruct fieldName as [|c rest]; [reflexivity|]. simpl.
  destruct (is_word_char c) eqn:Ew; [reflexivity|].
  unfold upper_char. destruct (is_lower c) eqn:El; [|reflexivity].
  apply lower_is_word in El. congruence.
Qed.

Lemma humanize_plain_name_witness :
  ascii_only "email" = true /\ has_upper "email" = false
  /\ humanize "email" = "Email".
Proof.
  split; [reflexivity|]. split; [reflexivity|].
  now rewrite (humanize_plain_name "email" eq_refl eq_refl).
Defined.

Lemma toLowerCase_append (a b : string) :
  toLowerCase (a +:+ b) = toLowerCase a +:+ toLowerCase b.
Proof.
  induction a as [|c a IH]; [reflexivity|].
  rewrite append_cons. simpl. now rewrite IH.
Qed.

Lemma toLowerCase_append_inv (s a b : string) :
  toLowerCase s = a +:+ b ->
  exists a' b', s = a' +:+ b' /\ toLowerCase a' = a /\ toLowerCase b' = b.
Proof.
  revert s. induction a as [|c a IH]; intros s H.
  - now exists "", s.
  - destruct s as [|x s]; [discriminate|]. rewrite append_cons in H.
    simpl in H. injection H as Hc Hs.
    destruct (IH s Hs) as (a' & b' & -> & Ha & Hb).
    exists (String x a'), b'. simpl. now rewrite Hc, Ha.
Qed.

(** X8. A field name is taken for a password exactly when it contains the
    word in any mix of capitals and small letters. *)
Theorem namesPassword_any_case (fieldName : string) :
  ZodFormConfig.namesPassword fieldName = true
  <-> exists word,
        occurs_in word fieldName /\ toLowerCase word = "password".
Proof.
  unfold ZodFormConfig.namesPassword. rewrite includes_occurs. split.
  - intros (before & after & H).
    apply toLowerCase_append_inv in H as (b' & r & -> & _ & Hr).
    apply toLowerCase_append_inv in Hr as (word & a' & -> & Hword & _).
    exists word. split; [now exists b', a' | exact Hword].
  - intros (word & (before & after & ->) & Hword).
    exists (toLowerCase before), (toLowerCase after).
    now rewrite !toLowerCase_append, Hword.
Qed.

(** ** The compiled configurations and the widgets *)

Import Components Render.

Lemma fieldConfig_eq t (isOptional : ZodType -> bool)
  (fieldName : string) (fieldSchema : ZodType) :
  exists meta,
    ZodForm.readMeta fieldSchema = Normal meta
    /\ ZodFormConfig.fieldConfig t isOptional fieldName fieldSchema
       = Normal
           (ZodFormConfig.setLabel
              (t {| id := "field." +:+ fieldName;
                    defaultMessage := Some (humanize fieldName) |} None)
              (ZodFormConfig.applyMeta meta
                 (ZodFormConfig.applyKind t isOptional fieldName fieldSchema
                    (ZodFormConfig.initialConfig fieldName)))).
Proof.
  destruct (readMeta_returns fieldSchema) as [meta Hmeta]. exists meta.
  split; [exact Hmeta|]. unfold ZodFormConfig.fieldConfig. now rewrite Hmeta.
Qed.

Lemma applyMeta_keeps (meta : option Meta)
  (config : ZodFormConfig.FieldConfig) :
  ZodFormConfig.type (ZodFormConfig.applyMeta meta config)
  = ZodFormConfig.type config
  /\ ZodFormConfig.options (ZodFormConfig.applyMeta meta config)
     = ZodFormConfig.options config
  /\ ZodFormConfig.isPassword (ZodFormConfig.applyMeta meta config)
     = ZodFormConfig.isPassword config
  /\ ZodFormConfig.placeholder (ZodFormConfig.applyMeta meta config)
     = ZodFormConfig.placeholder config.
Proof.
  destruct meta as [m|]; [|repeat split].
  unfold ZodFormConfig.applyMeta.
  destruct (Zod.showConditions m); repeat split.
Qed.

Lemma applyKind_showConditions t (isOptional : ZodType -> bool)
  (fieldName : string) (fieldSchema : ZodType)
  (config : ZodFormConfig.FieldConfig) :
  ZodFormConfig.showConditions
    (ZodFormConfig.applyKind t isOptional fieldName fieldSchema config)
  = ZodFormConfig.showConditions config.
Proof.
  destruct fieldSchema as [checks m|m|m|opts m|inner m|m];
    simpl; unfold ZodFormConfig.passwordOrFieldPlaceholder;
    repeat case_match; reflexivity.
Qed.

Lemma enumOptions_length t (fieldName : string) (opts : list string) :
  length (ZodFormConfig.enumOptions t fieldName opts) = length opts.
Proof. unfold ZodFormConfig.enumOptions. apply length_map. Qed.

Lemma choiceWidget_kind (l p : option string)
  (opts : list ZodFormConfig.SelectOption) :
  widgetKind (choiceWidget l p opts)
  = if Nat.leb (length opts) 3 then KindRadio else KindSelect.
Proof. unfold choiceWidget. now destruct (Nat.leb (length opts) 3). Qed.

Lemma declarationWidget_kind t (fieldName : string) (node : ZodType) :
  option_map widgetKind (declarationWidget t fieldName node)
  = match node with
    | ZodString _ _ | ZodNumber _ => Some KindTextInput
    | ZodBoolean _ => Some KindSwitch
    | ZodEnum opts _ =>
        Some (if Nat.leb (length opts) 3 then KindRadio else KindSelect)
    | _ => None
    end.
Proof.
  destruct node as [checks m|m|m|opts m|inner m|m]; try reflexivity.
  unfold declarationWidget. cbn [option_map].
  now rewrite choiceWidget_kind, enumOptions_length.
Qed.

Lemma configWidget_kind t (config : ZodFormConfig.FieldConfig) :
  option_map widgetKind (configWidget t config)
  = match ZodFormConfig.type config with
    | ZodFormConfig.TypeString | ZodFormConfig.TypeNumber =>
        Some KindTextInput
    | ZodFormConfig.TypeBoolean => Some KindSwitch
    | ZodFormConfig.TypeEnum =>
        match ZodFormConfig.options config with
        | Some opts =>
            Some (if Nat.leb (length opts) 3 then KindRadio else KindSelect)
        | None => None
        end
    end.
Proof.
  unfold configWidget. destruct (ZodFormConfig.type config); try reflexivity.
  destruct (ZodFormConfig.options config); [|reflexivity].
  cbn [option_map]. now rewrite choiceWidget_kind.
Qed.

Lemma applyKind_type_options t (isOptional : ZodType -> bool)
  (fieldName : string) (fieldSchema : ZodType) :
  let config :=
    ZodFormConfig.applyKind t isOptional fieldName fieldSchema
      (ZodFormConfig.initialConfig fieldName) in
  let declared n :=
    match n with
    | ZodString _ _ => Some (ZodFormConfig.TypeString, None)
    | ZodNumber _ => Some (ZodFormConfig.TypeNumber, None)
    | ZodBoolean _ => Some (ZodFormConfig.TypeBoolean, None)
    | ZodEnum opts _ =>
        Some (ZodFormConfig.TypeEnum,
              Some (ZodFormConfig.enumOptions t fieldName opts))
    | _ => None
    end in
  (ZodFormConfig.type config, ZodFormConfig.options config)
  = default (ZodFormConfig.TypeString, None)
      match fieldSchema with
      | ZodOptional inner _ => declared inner
      | _ => declared fieldSchema
      end.
Proof.
  destruct fieldSchema as [checks m|m|m|opts m|inner m|m]; simpl;
    unfold ZodFormConfig.passwordOrFieldPlaceholder;
    repeat case_match; reflexivity.
Qed.

(** X9. The component that reads the schema renders a text input for a
    text or number declaration, a switch for a boolean, a radio group for a
    choice of up to three options and a select above, looking through one
    optional wrapper, and nothing for any other node. The component that
    compiles configurations renders the same kinds, but a text input where
    the other renders nothing. *)
Theorem widget_kinds t (isOptional : ZodType -> bool)
  (fieldName : string) (fieldSchema : ZodType) :
  option_map widgetKind (schemaWidget t fieldName fieldSchema)
  = declaredKind fieldSchema
  /\ exists config,
       ZodFormConfig.fieldConfig t isOptional fieldName fieldSchema = Normal config
       /\ option_map widgetKind (configWidget t config)
          = Some (default KindTextInput (declaredKind fieldSchema)).
Proof.
  split.
  - unfold schemaWidget, declaredKind.
    destruct fieldSchema as [checks m|m|m|opts m|inner m|m];
      rewrite declarationWidget_kind; reflexivity.
  - destruct (fieldConfig_eq t isOptional fieldName fieldSchema) as (meta & _ & ->).
    eexists. split; [reflexivity|]. rewrite configWidget_kind.
    destruct (applyMeta_keeps meta
                (ZodFormConfig.applyKind t isOptional fieldName fieldSchema
                   (ZodFormConfig.initialConfig fieldName)))
      as (Htype & Hoptions & _ & _).
    pose proof (applyKind_type_options t isOptional fieldName fieldSchema) as Hkind.
    cbv zeta in Hkind.
    change (ZodFormConfig.type (ZodFormConfig.setLabel ?l ?c))
      with (ZodFormConfig.type c).
    change (ZodFormConfig.options (ZodFormConfig.setLabel ?l ?c))
      with (ZodFormConfig.options c).
    rewrite Htype, Hoptions.
    pose proof (f_equal fst Hkind) as Ht. pose proof (f_equal snd Hkind) as Ho.
    cbn [fst snd] in Ht, Ho. rewrite Ht, Ho.
    destruct fieldSchema as [checks m|m|m|opts m|inner m|m];
      try destruct inner as [checks' m'|m'|m'|opts' m'|inner' m'|m'];
      cbn; try reflexivity; now rewrite enumOptions_length.
Qed.

Lemma enumOptions_values t (fieldName : string) (opts : list string) :
  map ZodFormConfig.optionValue (ZodFormConfig.enumOptions t fieldName opts)
  = opts.
Proof.
  unfold ZodFormConfig.enumOptions.
  induction opts as [|o opts IH]; [reflexivity|]. simpl. now rewrite IH.
Qed.

(** X10. The configuration of a choice field, plain or wrapped once, lists
    the declared options, all of them and in the declared order; the
    configuration of any other field has no option list. *)
Theorem compiled_options t (isOptional : ZodType -> bool)
  (fieldName : string) (fieldSchema : ZodType) :
  exists config,
    ZodFormConfig.fieldConfig t isOptional fieldName fieldSchema = Normal config
    /\ option_map (map ZodFormConfig.optionValue)
         (ZodFormConfig.options config)
       = declaredOptions fieldSchema.
Proof.
  destruct (fieldConfig_eq t isOptional fieldName fieldSchema) as (meta & _ & ->).
  eexists. split; [reflexivity|].
  destruct (applyMeta_keeps meta
              (ZodFormConfig.applyKind t isOptional fieldName fieldSchema
                 (ZodFormConfig.initialConfig fieldName)))
    as (_ & Hoptions & _ & _).
  change (ZodFormConfig.options (ZodFormConfig.setLabel ?l ?c))
    with (ZodFormConfig.options c).
  rewrite Hoptions.
  pose proof (f_equal snd (applyKind_type_options t isOptional fieldName fieldSchema))
    as Ho.
  cbv zeta in Ho. cbn [snd] in Ho. rewrite Ho.
  destruct fieldSchema as [checks m|m|m|opts m|inner m|m];
    try destruct inner as [checks' m'|m'|m'|opts' m'|inner' m'|m'];
    cbn; try reflexivity; now rewrite enumOptions_values.
Qed.

Lemma applyKind_isPassword t (isOptional : ZodType -> bool)
  (fieldName : string) (fieldSchema : ZodType) :
  ZodFormConfig.isPassword
    (ZodFormConfig.applyKind t isOptional fieldName fieldSchema
       (ZodFormConfig.initialConfig fieldName))
  = if flaggedPassword fieldName fieldSchema then Some true else None.
Proof.
  destruct fieldSchema as [checks m|m|m|opts m|inner m|m]; simpl;
    unfold ZodFormConfig.passwordOrFieldPlaceholder;
    repeat case_match; simpl in *; congruence.
Qed.

(** X11. A configuration is flagged as a password exactly for a text
    declaration whose name contains the word and which is wrapped in an
    optional or carries no email check; a text with an email check, a
    number, a boolean and a choice are never flagged, whatever their name. *)
Theorem compiled_isPassword t (isOptional : ZodType -> bool)
  (fieldName : string) (fieldSchema : ZodType) :
  exists config,
    ZodFormConfig.fieldConfig t isOptional fieldName fieldSchema = Normal config
    /\ ZodFormConfig.isPassword config
       = if flaggedPassword fieldName fieldSchema then Some true else None.
Proof.
  destruct (fieldConfig_eq t isOptional fieldName fieldSchema) as (meta & _ & ->).
  eexists. split; [reflexivity|].
  destruct (applyMeta_keeps meta
              (ZodFormConfig.applyKind t isOptional fieldName fieldSchema
                 (ZodFormConfig.initialConfig fieldName)))
    as (_ & _ & Hpassword & _).
  change (ZodFormConfig.isPassword (ZodFormConfig.setLabel ?l ?c))
    with (ZodFormConfig.isPassword c).
  rewrite Hpassword. apply applyKind_isPassword.
Qed.

Lemma fieldPlaceholder_formatted (locale : Locale) (before : string)
  (fieldName : string) :
  lookup_message (messages locale) "form.field.placeholder"
  = Some (before +:+ "{fieldName}") ->
  has_char "{" before = false ->
  ZodFormConfig.fieldPlaceholder (formatMessage locale) fieldName
  = if String.eqb fieldName "" then before +:+ "{fieldName}"
    else before +:+ fieldName.
Proof.
  intros Hm Hbefore. unfold ZodFormConfig.fieldPlaceholder.
  rewrite (known_message locale _ (before +:+ "{fieldName}")); [|exact Hm|].
  2:{ intros H. apply (f_equal String.length) in H.
      rewrite length_append in H. simpl in H. lia. }
  change (before +:+ "{fieldName}")
    with (before +:+ "{" +:+ "fieldName" +:+ "}" +:+ "").
  rewrite replace_placeholders_at; [|reflexivity|discriminate].
  rewrite (replace_placeholders_no_brace _ _ Hbefore).
  rewrite replace_placeholders_empty, append_empty_r.
  unfold replacer, get. cbv zeta. rewrite lookup_singleton_eq. simpl.
  now destruct (String.eqb fieldName "").
Qed.

(** X12. The generic placeholder, the one of number fields and of text
    fields that are neither emails nor passwords, reads [Enter] (in French
    [Entrez]) followed by the field name as declared; for the empty name
    the placeholder mark stays in the text. *)
Theorem fieldPlaceholder_text (fieldName : string) :
  ZodFormConfig.fieldPlaceholder (formatMessage LocaleEn) fieldName
  = (if String.eqb fieldName "" then "Enter {fieldName}"
     else "Enter " +:+ fieldName)
  /\ ZodFormConfig.fieldPlaceholder (formatMessage LocaleFr) fieldName
     = (if String.eqb fieldName "" then "Entrez {fieldName}"
        else "Entrez " +:+ fieldName).
Proof.
  split.
  - apply (fieldPlaceholder_formatted LocaleEn "Enter "); reflexivity.
  - apply (fieldPlaceholder_formatted LocaleFr "Entrez "); reflexivity.
Qed.

Lemma fieldConfig_showConditions t (isOptional : ZodType -> bool)
  (fieldName : string)
  (fieldSchema : ZodType) :
  exists meta config,
    ZodForm.readMeta fieldSchema = Normal meta
    /\ ZodFormConfig.fieldConfig t isOptional fieldName fieldSchema = Normal config
    /\ ZodFormConfig.showConditions config
       = match meta with
         | Some m =>
             match Zod.showConditions m with
             | ShowConditionsArray cs => Some cs
             | _ => None
             end
         | None => None
         end.
Proof.
  destruct (fieldConfig_eq t isOptional fieldName fieldSchema) as (meta & Hmeta & ->).
  exists meta. eexists. split; [exact Hmeta|]. split; [reflexivity|].
  change (ZodFormConfig.showConditions (ZodFormConfig.setLabel ?l ?c))
    with (ZodFormConfig.showConditions c).
  pose proof (applyKind_showConditions t isOptional fieldName fieldSchema
                (ZodFormConfig.initialConfig fieldName)) as Hkind.
  change (ZodFormConfig.showConditions (ZodFormConfig.initialConfig fieldName))
    with (@None (list Condition)) in Hkind.
  destruct meta as [m|]; [|exact Hkind].
  unfold ZodFormConfig.applyMeta.
  destruct (Zod.showConditions m); try exact Hkind. reflexivity.
Qed.

(** X13. The two versions of the component agree on what is shown: when
    [getShowConditions] reads a list of conditions from a declaration, the
    configuration compiled from the same declaration is shown under exactly
    the values under which that list holds. *)
Theorem visibility_versions_agree t (isOptional : ZodType -> bool)
  (fieldName : string)
  (fieldSchema : ZodType) (conditions : list Condition) :
  ZodForm.getShowConditions fieldSchema
  = Normal (ZodForm.Conditions conditions) ->
  exists config,
    ZodFormConfig.fieldConfig t isOptional fieldName fieldSchema = Normal config
    /\ forall values,
         ZodFormConfig.isFieldVisible values config
         = ZodForm.isFieldVisible values conditions.
Proof.
  intros Hget.
  destruct (fieldConfig_showConditions t isOptional fieldName fieldSchema)
    as (meta & config & Hmeta & Hconfig & Hshow).
  exists config. split; [exact Hconfig|]. intros values.
  rewrite isFieldVisible_config, Hshow.
  unfold ZodForm.getShowConditions in Hget. rewrite Hmeta in Hget.
  simpl in Hget.
  destruct meta as [m|]; [|now injection Hget as <-].
  destruct (Zod.showConditions m) as [|cs|[|]];
    try (now injection Hget as <-). discriminate.
Qed.

Lemma visibility_versions_agree_witness :
  let node :=
    ZodOptional
      (ZodString None
         (MetaReturns
            (Some {| Zod.showConditions :=
                       ShowConditionsArray
                         [cond "country" "equals" (JsString "us")] |})))
      (MetaReturns None) in
  exists config,
    ZodFormConfig.fieldConfig (formatMessage LocaleEn) (fun _ => false)
      "phoneNumber" node
    = Normal config
    /\ forall values,
         ZodFormConfig.isFieldVisible values config
         = ZodForm.isFieldVisible values
             [cond "country" "equals" (JsString "us")].
Proof.
  intros node.
  exact (visibility_versions_agree (formatMessage LocaleEn) (fun _ => false)
           "phoneNumber" node [cond "country" "equals" (JsString "us")] eq_refl).
Defined.

(** X14. Metadata is looked for on the declaration, then one wrapper down,
    and no further. For an optional node without metadata of its own, the
    conditions are those of the wrapped node when that one is not itself
    optional; metadata set on the optional node itself hides that of the
    wrapped node; and under two optional wrappers without metadata the
    conditions of the innermost node are not read at all. *)
Theorem metadata_one_level :
  (forall inner m,
      metaUnavailable (ZodOptional inner m) ->
      asOptional inner = None ->
      ZodForm.getShowConditions (ZodOptional inner m)
      = ZodForm.getShowConditions inner)
  /\ (forall inner inner' meta,
        ZodForm.getShowConditions
          (ZodOptional inner (MetaReturns (Some meta)))
        = ZodForm.getShowConditions
            (ZodOptional inner' (MetaReturns (Some meta))))
  /\ (forall innermost m1 m2,
        metaUnavailable (ZodOptional (ZodOptional innermost m2) m1) ->
        metaUnavailable (ZodOptional innermost m2) ->
        ZodForm.getShowConditions
          (ZodOptional (ZodOptional innermost m2) m1)
        = Normal (ZodForm.Conditions [])).
Proof.
  split; [|split].
  - intros inner m Houter Hinner.
    unfold ZodForm.getShowConditions, ZodForm.readMeta, ZodForm.callMeta.
    rewrite Hinner. unfold metaUnavailable in Houter. simpl in Houter |- *.
    destruct Houter as [-> | ->]; simpl;
      destruct (metaCall_of inner) as [|[meta|]]; reflexivity.
  - reflexivity.
  - intros innermost m1 m2 H1 H2.
    unfold ZodForm.getShowConditions, ZodForm.readMeta, ZodForm.callMeta.
    unfold metaUnavailable in H1, H2. simpl in *.
    destruct H1 as [-> | ->], H2 as [-> | ->]; reflexivity.
Qed.

Lemma metadata_one_level_witness :
  let rule := [cond "country" "equals" (JsString "us")] in
  let inner :=
    ZodString None
      (MetaReturns (Some {| Zod.showConditions := ShowConditionsArray rule |})) in
  ZodForm.getShowConditions (ZodOptional inner (MetaReturns None))
  = Normal (ZodForm.Conditions rule)
  /\ ZodForm.getShowConditions
       (ZodOptional (ZodOptional inner MetaThrows) (MetaReturns None))
     = Normal (ZodForm.Conditions []).
Proof.
  intros rule inner. split.
  - rewrite (proj1 metadata_one_level inner (MetaReturns None));
      [reflexivity | right; reflexivity | reflexivity].
  - apply (proj2 (proj2 metadata_one_level) inner (MetaReturns None) MetaThrows);
      [right; reflexivity | left; reflexivity].
Defined.

(** ** More on the visibility evaluator *)

(** X15. Rules compose by conjunction: a rule made of two rules shows the
    field exactly when both do, and the order of the conditions does not
    matter. *)
Theorem rule_composition (values : gmap string JsValue) :
  (forall r1 r2,
      ZodForm.isFieldVisible values (r1 ++ r2)
      = ZodForm.isFieldVisible values r1 && ZodForm.isFieldVisible values r2)
  /\ (forall r1 r2,
        Permutation r1 r2 ->
        ZodForm.isFieldVisible values r1 = ZodForm.isFieldVisible values r2).
Proof.
  split.
  - intros r1 r2. rewrite !isFieldVisible_forallb. apply forallb_app.
  - intros r1 r2 Hperm. rewrite !isFieldVisible_forallb.
    induction Hperm as [|c r1 r2 _ IH|c1 c2 r|r1 r2 r3 _ IH1 _ IH2]; simpl.
    + reflexivity.
    + now rewrite IH.
    + now rewrite !andb_assoc,
        (andb_comm (ZodForm.conditionHolds values c1)).
    + now rewrite IH1.
Qed.

Lemma rule_composition_witness :
  let a := cond "country" "equals" (JsString "us") in
  let b := cond "notifications" "true" JsUndefined in
  let values : gmap string JsValue := {[ "country" := JsString "us" ]} in
  Permutation [a; b] [b; a]
  /\ ZodForm.isFieldVisible values [a; b]
     = ZodForm.isFieldVisible values [b; a].
Proof.
  intros a b values.
  assert (Hperm : Permutation [a; b] [b; a]) by apply perm_swap.
  split; [exact Hperm|].
  exact (proj2 (rule_composition values) [a; b] [b; a] Hperm).
Defined.



(** X17. [notEquals] is the negation of [equals]. [contains] and
    [notContains] are not each other's negation: on a text exactly one of
    them holds, on any other value neither does. *)
Theorem operators_complementary (values : gmap string JsValue) (f : string)
  (v : JsValue) :
  ZodForm.conditionHolds values (cond f "notEquals" v)
  = negb (ZodForm.conditionHolds values (cond f "equals" v))
  /\ ZodForm.conditionHolds values (cond f "contains" v)
     && ZodForm.conditionHolds values (cond f "notContains" v) = false
  /\ ZodForm.conditionHolds values (cond f "contains" v)
     || ZodForm.conditionHolds values (cond f "notContains" v)
     = is_string (get values f).
Proof.
  unfold ZodForm.conditionHolds, cond. cbn [field operator value]. cbn.
  split; [reflexivity|].
  destruct (get values f) as [| |b|n| |s]; try (split; reflexivity).
  simpl. destruct (string_includes s v); split; reflexivity.
Qed.

(** ** More on the validators and refinements *)

Lemma empty_length (p : string) :
  String.eqb p "" = Nat.eqb (String.length p) 0.
Proof. now destruct p. Qed.

(** X18. Both validators look at the length of the text only: two texts of
    the same length are accepted or rejected alike, so a phone number of
    ten characters passes whatever the characters are. *)
Theorem validators_read_length_only (p q : string) :
  String.length p = String.length q ->
  validation PhoneValidator.checkPhoneNumber (Some p)
  = validation PhoneValidator.checkPhoneNumber (Some q)
  /\ validation PasswordValidator.checkPassword (Some p)
     = validation PasswordValidator.checkPassword (Some q).
Proof.
  intros Hlen.
  change (validation PhoneValidator.checkPhoneNumber (Some p))
    with (negb (String.eqb p "") && Nat.eqb (String.length p) 10).
  change (validation PhoneValidator.checkPhoneNumber (Some q))
    with (negb (String.eqb q "") && Nat.eqb (String.length q) 10).
  change (validation PasswordValidator.checkPassword (Some p))
    with (negb (String.eqb p "") && Nat.leb 6 (String.length p)).
  change (validation PasswordValidator.checkPassword (Some q))
    with (negb (String.eqb q "") && Nat.leb 6 (String.length q)).
  now rewrite !empty_length, Hlen.
Qed.

Lemma validators_read_length_only_witness :
  validation PhoneValidator.checkPhoneNumber (Some "not-digits") = true.
Proof.
  now rewrite (proj1 (validators_read_length_only "not-digits" "0123456789"
                        eq_refl)).
Defined.

Lemma checkPasswordMatch_length (data : App.FormData) :
  App.checkPasswordMatch data = true
  <-> 6 <= String.length (App.password data).
Proof.
  unfold App.checkPasswordMatch. rewrite checkPassword_validation. split.
  - intros (p & H & Hlen). now injection H as <-.
  - intros H. now exists (App.password data).
Qed.

Lemma runRefinements_eq t (form : option App.UseFormReturn)
  (data : App.FormData) :
  App.runRefinements (App.refinements t) form data
  = ((if App.checkPasswordMatch data then []
      else [{| App.path := ["repeatPassword"];
               App.message := errMessage PasswordValidator.checkPassword t |}])
     ++ (if fst (App.checkPhoneNumberLength form data) then []
         else [{| App.path := ["phoneNumber"];
                  App.message :=
                    errMessage PhoneValidator.checkPhoneNumber t |}]),
     snd (App.checkPhoneNumberLength form data)).
Proof.
  unfold App.refinements, App.runRefinements, App.runRefinement.
  change (App.check (App.passwordRefinement t) form data)
    with (App.checkPasswordMatch data, form).
  change (App.check (App.phoneRefinement t)) with App.checkPhoneNumberLength.
  cbv iota beta.
  destruct (App.checkPhoneNumberLength form data) as [ok form'].
  cbn [fst snd App.refinementPath App.refinementMessage App.phoneRefinement
       App.passwordRefinement].
  now rewrite app_nil_r.
Qed.

(** X19. Whatever the values, the whole-schema refinements raise at most
    one issue at [repeatPassword] and at most one at [phoneNumber], and none
    anywhere else: the [password] field never gets one. *)
Theorem refinement_issue_targets t (form : option App.UseFormReturn)
  (data : App.FormData) :
  let issues := fst (App.runRefinements (App.refinements t) form data) in
  Forall (fun i => App.path i = ["repeatPassword"]
                   \/ App.path i = ["phoneNumber"]) issues
  /\ App.issuesAt "password" issues = []
  /\ length (App.issuesAt "repeatPassword" issues) <= 1
  /\ length (App.issuesAt "phoneNumber" issues) <= 1.
Proof.
  intros issues. subst issues. rewrite runRefinements_eq. cbn [fst].
  destruct (App.checkPasswordMatch data),
    (fst (App.checkPhoneNumberLength form data)); cbn [app];
    (split;
     [repeat first [apply List.Forall_nil | apply List.Forall_cons; [auto|]]|]);
    (split; [reflexivity|]); split; vm_compute; lia.
Qed.

(** X20. A pass over the refinements leaves a form that is not mounted
    alone, and on a mounted form adds one request to re-validate
    [phoneNumber] after the requests already made when the country is [us],
    and none otherwise. *)
Theorem revalidation_requests t (data : App.FormData) :
  snd (App.runRefinements (App.refinements t) None data) = None
  /\ forall form,
       exists form',
         snd (App.runRefinements (App.refinements t) (Some form) data)
         = Some form'
         /\ App.triggered form'
            = App.triggered form
              ++ (if String.eqb (App.country data) "us" then ["phoneNumber"]
                  else []).
Proof.
  split.
  - rewrite runRefinements_eq. cbn [snd]. unfold App.checkPhoneNumberLength.
    now destruct (String.eqb (App.country data) "us").
  - intros form. rewrite runRefinements_eq. cbn [snd].
    unfold App.checkPhoneNumberLength.
    destruct (String.eqb (App.country data) "us"); simpl.
    + eexists. split; reflexivity.
    + eexists. split; [reflexivity | now rewrite app_nil_r].
Qed.

(** X21. Two passwords of six characters or more raise no issue, equal or
    not, as long as the phone refinement passes: nothing compares the
    confirmation with the password. *)
Theorem mismatched_passwords_accepted t (form : option App.UseFormReturn)
  (data : App.FormData) :
  6 <= String.length (App.password data) ->
  6 <= String.length (App.repeatPassword data) ->
  fst (App.checkPhoneNumberLength form data) = true ->
  App.passwordAndRefinementIssues t form data = [].
Proof.
  intros Hp Hr Hphone. unfold App.passwordAndRefinementIssues.
  rewrite runRefinements_eq. cbn [fst]. rewrite Hphone.
  assert (Hmatch : App.checkPasswordMatch data = true)
    by now apply checkPasswordMatch_length.
  rewrite Hmatch.
  unfold App.passwordIssues, App.repeatPasswordIssues, App.stringMin.
  apply Nat.ltb_ge in Hp. apply Nat.ltb_ge in Hr. now rewrite Hp, Hr.
Qed.

Lemma mismatched_passwords_accepted_witness :
  let data := {|
    App.name := "Robin Lebhar"; App.email := "robin@lebhar.com";
    App.country := "fr"; App.gender := "male"; App.notifications := false;
    App.password := "123456"; App.repeatPassword := "654321";
    App.newsletter := None; App.phoneNumber := Some "";
    App.address := None; App.terms := true |} in
  App.password data <> App.repeatPassword data
  /\ App.passwordAndRefinementIssues
       (fun d => formatMessage LocaleEn d None) None data = [].
Proof.
  intros data. split; [discriminate|].
  apply (mismatched_passwords_accepted _ None data);
    [simpl; lia | simpl; lia | reflexivity].
Defined.

(** X22. A password shorter than six characters is reported twice: at
    [password] by its own minimum length, and at [repeatPassword] by the
    refinement, whatever the confirmation field holds. *)
Theorem short_password_reported_twice t (form : option App.UseFormReturn)
  (data : App.FormData) :
  String.length (App.password data) < 6 ->
  App.issuesAt "password" (App.passwordAndRefinementIssues t form data)
  = [{| App.path := ["password"];
        App.message :=
          t {| id := "error.password.min"; defaultMessage := None |} |}]
  /\ In {| App.path := ["repeatPassword"];
           App.message := errMessage PasswordValidator.checkPassword t |}
       (App.issuesAt "repeatPassword"
          (App.passwordAndRefinementIssues t form data)).
Proof.
  intros Hshort. unfold App.passwordAndRefinementIssues.
  rewrite runRefinements_eq. cbn [fst].
  assert (Hmatch : App.checkPasswordMatch data = false).
  { apply not_true_is_false. rewrite checkPasswordMatch_length. lia. }
  rewrite Hmatch.
  unfold App.passwordIssues, App.repeatPasswordIssues, App.stringMin.
  apply Nat.ltb_lt in Hshort. rewrite Hshort.
  destruct (Nat.ltb (String.length (App.repeatPassword data)) 6),
    (fst (App.checkPhoneNumberLength form data));
    (split; [reflexivity | vm_compute; tauto]).
Qed.

Lemma short_password_reported_twice_witness :
  let data := {|
    App.name := "Robin Lebhar"; App.email := "robin@lebhar.com";
    App.country := "fr"; App.gender := "male"; App.notifications := false;
    App.password := "123"; App.repeatPassword := "a long confirmation";
    App.newsletter := None; App.phoneNumber := None;
    App.address := None; App.terms := true |} in
  In {| App.path := ["repeatPassword"];
        App.message := "Password must be at least 6 characters" |}
    (App.issuesAt "repeatPassword"
       (App.passwordAndRefinementIssues
          (fun d => formatMessage LocaleEn d None) None data)).
Proof.
  intros data.
  apply (proj2 (short_password_reported_twice
                  (fun d => formatMessage LocaleEn d None) None data
                  ltac:(simpl; lia))).
Defined.

(** ** The texts given to widgets *)

Lemma msg_nonempty (locale : Locale) (key : string) values :
  key <> "" -> formatMessage locale (ZodFormConfig.msg key) values <> "".
Proof. intros H. now apply formatMessage_result_nonempty. Qed.

Lemma prefixed_nonempty (c : ascii) (a b : string) : String c a +:+ b <> "".
Proof. rewrite append_cons. discriminate. Qed.

Lemma enumOptions_labels_nonempty (locale : Locale) (fieldName : string)
  (opts : list string) :
  Forall (fun x => x <> "")
    (map ZodFormConfig.optionLabel
       (ZodFormConfig.enumOptions (formatMessage locale) fieldName opts)).
Proof.
  unfold ZodFormConfig.enumOptions.
  induction opts as [|o opts IH]; [constructor|]. simpl. constructor; [|exact IH].
  apply formatMessage_result_nonempty. simpl. intros H.
  apply (f_equal String.length) in H. rewrite !length_append in H.
  simpl in H. lia.
Qed.

Lemma choiceWidget_texts (l p : option string)
  (opts : list ZodFormConfig.SelectOption) :
  Forall (fun x => x <> "") (widgetTexts (RadioWidget l opts)) ->
  Forall (fun x => x <> "") (widgetTexts (SelectWidget l p opts)) ->
  Forall (fun x => x <> "") (widgetTexts (choiceWidget l p opts)).
Proof.
  intros Hr Hs. unfold choiceWidget. now destruct (Nat.leb (length opts) 3).
Qed.

Lemma declarationWidget_texts (locale : Locale) (fieldName : string)
  (node : ZodType) (w : Widget) :
  declarationWidget (formatMessage locale) fieldName node = Some w ->
  Forall (fun x => x <> "") (widgetTexts w).
Proof.
  assert (Hlabel : fieldLabel (formatMessage locale) fieldName <> "").
  { apply formatMessage_result_nonempty. apply prefixed_nonempty. }
  assert (Hplace : schemaPlaceholder (formatMessage locale) fieldName <> "").
  { apply msg_nonempty. apply prefixed_nonempty. }
  assert (Hdesc : fieldDescription (formatMessage locale) fieldName <> "").
  { apply msg_nonempty. apply prefixed_nonempty. }
  destruct node as [checks m|m|m|opts m|inner m|m]; simpl;
    try discriminate; intros [= <-].
  - now repeat constructor.
  - now repeat constructor.
  - now repeat constructor.
  - apply choiceWidget_texts; simpl;
      (constructor; [exact Hlabel | apply enumOptions_labels_nonempty]).
Qed.

Lemma applyKind_texts (locale : Locale) (isOptional : ZodType -> bool)
  (fieldName : string)
  (fieldSchema : ZodType) :
  let config :=
    ZodFormConfig.applyKind (formatMessage locale) isOptional fieldName fieldSchema
      (ZodFormConfig.initialConfig fieldName) in
  (forall p, ZodFormConfig.placeholder config = Some p -> p <> "")
  /\ (forall opts,
        ZodFormConfig.options config = Some opts ->
        Forall (fun x => x <> "") (map ZodFormConfig.optionLabel opts))
  /\ ZodFormConfig.description config = None.
Proof.
  assert (Hfield : ZodFormConfig.fieldPlaceholder (formatMessage locale)
                     fieldName <> "")
    by (apply msg_nonempty; discriminate).
  assert (Hemail : formatMessage locale
                     (ZodFormConfig.msg "form.email.placeholder") None <> "")
    by (apply msg_nonempty; discriminate).
  assert (Hpass : formatMessage locale
                    (ZodFormConfig.msg "form.password.placeholder") None <> "")
    by (apply msg_nonempty; discriminate).
  destruct fieldSchema as [checks m|m|m|opts m|inner m|m];
    try destruct inner as [checks' m'|m'|m'|opts' m'|inner' m'|m'];
    cbn [ZodFormConfig.applyKind]; cbv zeta;
    unfold ZodFormConfig.passwordOrFieldPlaceholder;
    repeat case_match; cbn;
    (split; [intros p; try discriminate; now intros [= <-]|]);
    (split; [intros o; try discriminate; intros [= <-];
             apply enumOptions_labels_nonempty | reflexivity]).
Qed.

(** X23. Under either locale no widget is given an empty text: the label,
    the placeholder, the description and the option labels that a rendered
    field carries are all non-empty, in both versions of the component; the
    worst a field gets is a message key. *)
Theorem widget_texts_nonempty (locale : Locale)
  (isOptional : ZodType -> bool) (fieldName : string)
  (fieldSchema : ZodType) :
  (forall w,
      schemaWidget (formatMessage locale) fieldName fieldSchema = Some w ->
      Forall (fun x => x <> "") (widgetTexts w))
  /\ exists config,
       ZodFormConfig.fieldConfig (formatMessage locale) isOptional fieldName fieldSchema
       = Normal config
       /\ forall w,
            configWidget (formatMessage locale) config = Some w ->
            Forall (fun x => x <> "") (widgetTexts w).
Proof.
  split.
  - intros w. unfold schemaWidget.
    destruct fieldSchema; apply declarationWidget_texts.
  - destruct (fieldConfig_eq (formatMessage locale) isOptional fieldName fieldSchema)
      as (meta & _ & ->).
    eexists. split; [reflexivity|]. intros w. unfold configWidget.
    destruct (applyMeta_keeps meta
                (ZodFormConfig.applyKind (formatMessage locale) isOptional fieldName
                   fieldSchema (ZodFormConfig.initialConfig fieldName)))
      as (Htype & Hoptions & _ & Hplaceholder).
    destruct (applyKind_texts locale isOptional fieldName fieldSchema)
      as (Hp & Ho & Hd). cbv zeta in Hp, Ho, Hd.
    assert (Hdescription :
              ZodFormConfig.description
                (ZodFormConfig.applyMeta meta
                   (ZodFormConfig.applyKind (formatMessage locale) isOptional fieldName
                      fieldSchema (ZodFormConfig.initialConfig fieldName)))
              = None).
    { destruct meta as [m|]; [|exact Hd]. unfold ZodFormConfig.applyMeta.
      destruct (Zod.showConditions m); exact Hd. }
    cbn [ZodFormConfig.type ZodFormConfig.options ZodFormConfig.label
         ZodFormConfig.placeholder ZodFormConfig.description
         ZodFormConfig.isPassword ZodFormConfig.setLabel].
    rewrite Htype, Hoptions, Hplaceholder, Hdescription.
    set (l := formatMessage locale _ None).
    assert (Hl : l <> "").
    { apply formatMessage_result_nonempty. apply prefixed_nonempty. }
    set (config0 := ZodFormConfig.applyKind _ _ _ _ _) in *.
    assert (Hplace : Forall (fun x => x <> "")
                       match ZodFormConfig.placeholder config0 with
                       | Some x => [x]
                       | None => []
                       end).
    { destruct (ZodFormConfig.placeholder config0) as [p|] eqn:E;
        [|constructor]. constructor; [now apply Hp | constructor]. }
    destruct (ZodFormConfig.type config0).
    + intros [= <-]. simpl. now constructor.
    + intros [= <-]. simpl. now constructor.
    + intros [= <-]. simpl. now repeat constructor.
    + destruct (ZodFormConfig.options config0) as [opts|] eqn:E;
        [|discriminate].
      intros [= <-]. specialize (Ho opts eq_refl).
      apply choiceWidget_texts; simpl.
      * now constructor.
      * constructor; [exact Hl|]. constructor; [|exact Ho].
        apply msg_nonempty. discriminate.
Qed.

(** X24. The error line of a shown field is never empty: it is the message
    of the field's error when that is a non-empty text, and the localized
    [error.required] text otherwise; there is no line when errors are not
    to be shown or the field has none. *)
Theorem error_line (locale : Locale) (showFieldErrors : bool)
  (error : option FieldError) :
  match errorText (formatMessage locale) showFieldErrors error with
  | Some line =>
      line <> "" /\ showFieldErrors = true
      /\ exists e,
           error = Some e
           /\ line = match errorMessage e with
                     | Some m =>
                         if String.eqb m "" then
                           match locale with
                           | LocaleEn => "This field is required"
                           | LocaleFr => "Ce champ est requis"
                           end
                         else m
                     | None =>
                         match locale with
                         | LocaleEn => "This field is required"
                         | LocaleFr => "Ce champ est requis"
                         end
                     end
  | None => showFieldErrors = false \/ error = None
  end.
Proof.
  unfold errorText. destruct showFieldErrors; [|now left].
  destruct error as [[message]|]; [|now right].
  assert (Hrequired : formatMessage locale (ZodFormConfig.msg "error.required")
                        None
                      = match locale with
                        | LocaleEn => "This field is required"
                        | LocaleFr => "Ce champ est requis"
                        end) by now destruct locale.
  cbn [errorMessage]. rewrite Hrequired. split; [|split; [reflexivity|]].
  - destruct message as [m|]; [|now destruct locale].
    destruct (String.eqb_spec m ""); [now destruct locale | assumption].
  - eexists. split; reflexivity.
Qed.

(** ** The widgets *)

Lemma get_onChange (fieldName other : string) (v : JsValue)
  (values : gmap string JsValue) :
  get (onChange fieldName v values) other
  = if String.eqb fieldName other then v else get values other.
Proof.
  unfold get, onChange.
  destruct (String.eqb_spec fieldName other) as [->|Hne].
  - now rewrite lookup_insert_eq.
  - now rewrite lookup_insert_ne.
Qed.

Lemma optionIs_value (o o' : ZodFormConfig.SelectOption) :
  optionIs (JsString (ZodFormConfig.optionValue o)) o'
  = String.eqb (ZodFormConfig.optionValue o') (ZodFormConfig.optionValue o).
Proof. reflexivity. Qed.

Lemma selectedOption_pressed (options : list ZodFormConfig.SelectOption)
  (o : ZodFormConfig.SelectOption) :
  NoDup (map ZodFormConfig.optionValue options) ->
  In o options ->
  selectedOption options (JsString (ZodFormConfig.optionValue o)) = Some o.
Proof.
  unfold selectedOption.
  induction options as [|o' options IH]; [contradiction|].
  intros Hnodup [->|Hin]; cbn [List.find]; rewrite optionIs_value.
  - now rewrite String.eqb_refl.
  - simpl in Hnodup. apply NoDup_cons in Hnodup as [Hfresh Hnodup].
    destruct (String.eqb_spec (ZodFormConfig.optionValue o')
                (ZodFormConfig.optionValue o)) as [E|_].
    + exfalso. apply Hfresh. rewrite E. apply list_elem_of_In.
      now apply in_map.
    + now apply IH.
Qed.

(** X25. After an option of a select is pressed, the select button shows
    the label of that option, provided no two options have the same value;
    and while the value of the field is none of the option values, the
    button shows the placeholder, [Select an option] if none was passed. *)
Theorem select_shows_pressed_option (placeholder : option string)
  (options : list ZodFormConfig.SelectOption) :
  (forall o fieldName values,
      NoDup (map ZodFormConfig.optionValue options) ->
      In o options ->
      selectText placeholder options
        (get (optionPress fieldName o values) fieldName)
      = ZodFormConfig.optionLabel o)
  /\ (forall value,
        Forall (fun o => optionIs value o = false) options ->
        selectText placeholder options value
        = default "Select an option" placeholder).
Proof.
  split.
  - intros o fieldName values Hnodup Hin. unfold optionPress.
    rewrite get_onChange, String.eqb_refl. unfold selectText.
    now rewrite (selectedOption_pressed options o Hnodup Hin).
  - intros value Hnone. unfold selectText, selectedOption.
    induction Hnone as [|o options Ho _ IH]; [reflexivity|].
    cbn [List.find]. now rewrite Ho.
Qed.

Lemma select_shows_pressed_option_witness :
  let options :=
    ZodFormConfig.enumOptions (formatMessage LocaleFr) "country"
      ["us"; "ca"; "uk"; "fr"; "de"] in
  selectText None options
    (get (optionPress "country"
            {| ZodFormConfig.optionLabel := "Allemagne";
               ZodFormConfig.optionValue := "de" |} ∅) "country")
  = "Allemagne".
Proof.
  intros options.
  apply (proj1 (select_shows_pressed_option None options)).
  - vm_compute. repeat constructor; rewrite ?elem_of_cons, ?elem_of_nil;
      intros H; repeat destruct H as [H|H]; discriminate || exact H.
  - vm_compute. tauto.
Defined.

(** X26. After an option of a radio group is pressed, exactly one option is
    drawn as selected, provided no two options have the same value. *)
Theorem radio_marks_one_option (options : list ZodFormConfig.SelectOption)
  (o : ZodFormConfig.SelectOption) (fieldName : string)
  (values : gmap string JsValue) :
  NoDup (map ZodFormConfig.optionValue options) ->
  In o options ->
  count_occ Bool.bool_dec
    (radioSelected options (get (optionPress fieldName o values) fieldName))
    true
  = 1.
Proof.
  intros Hnodup Hin. unfold optionPress.
  rewrite get_onChange, String.eqb_refl. unfold radioSelected.
  assert (Hnone : forall l,
             ~ In (ZodFormConfig.optionValue o)
                 (map ZodFormConfig.optionValue l) ->
             count_occ Bool.bool_dec
               (map (optionIs (JsString (ZodFormConfig.optionValue o))) l)
               true = 0).
  { induction l as [|o' l IH]; [reflexivity|]. intros Hfresh.
    cbn [map]. rewrite optionIs_value.
    destruct (String.eqb_spec (ZodFormConfig.optionValue o')
                (ZodFormConfig.optionValue o)) as [E|_].
    - exfalso. apply Hfresh. left. exact E.
    - rewrite count_occ_cons_neq by discriminate.
      apply IH. intros H. apply Hfresh. now right. }
  induction options as [|o' options IH]; [contradiction|].
  simpl in Hnodup. apply NoDup_cons in Hnodup as [Hfresh Hnodup].
  rewrite list_elem_of_In in Hfresh.
  cbn [map]. rewrite optionIs_value.
  destruct Hin as [->|Hin].
  - rewrite String.eqb_refl, count_occ_cons_eq by reflexivity.
    now rewrite (Hnone options Hfresh).
  - destruct (String.eqb_spec (ZodFormConfig.optionValue o')
                (ZodFormConfig.optionValue o)) as [E|_].
    + exfalso. apply Hfresh. rewrite E. now apply in_map.
    + rewrite count_occ_cons_neq by discriminate. now apply IH.
Qed.

Lemma radio_marks_one_option_witness :
  let options :=
    ZodFormConfig.enumOptions (formatMessage LocaleEn) "gender"
      ["male"; "female"; "other"] in
  let pressed :=
    {| ZodFormConfig.optionLabel := "Female";
       ZodFormConfig.optionValue := "female" |} in
  radioSelected options (get (optionPress "gender" pressed ∅) "gender")
  = [false; true; false]
  /\ count_occ Bool.bool_dec
       (radioSelected options (get (optionPress "gender" pressed ∅) "gender"))
       true
     = 1.
Proof.
  intros options pressed. split; [vm_compute; reflexivity|].
  apply (radio_marks_one_option options pressed "gender" ∅).
  - vm_compute. repeat constructor; rewrite ?elem_of_cons, ?elem_of_nil;
      intros H; repeat destruct H as [H|H]; discriminate || exact H.
  - vm_compute. tauto.
Defined.

(** X27. Pressing a switch sets its field to a boolean, true exactly when
    the value was falsy (an unset field among them), and leaves the other
    fields alone; a second press sets it to the opposite. A field shown on
    the condition that the switch is true, through [equals] or through
    [true], is therefore shown after a press exactly when the switch was
    falsy before it. *)
Theorem switch_press (fieldName : string) (values : gmap string JsValue)
  (v : JsValue) :
  get (switchPress fieldName values) fieldName
  = JsBoolean (negb (truthy (get values fieldName)))
  /\ get (switchPress fieldName (switchPress fieldName values)) fieldName
     = JsBoolean (truthy (get values fieldName))
  /\ (forall other,
        other <> fieldName ->
        get (switchPress fieldName values) other = get values other)
  /\ ZodForm.isFieldVisible (switchPress fieldName values)
       [cond fieldName "equals" (JsBoolean true)]
     = negb (truthy (get values fieldName))
  /\ ZodForm.isFieldVisible (switchPress fieldName values)
       [cond fieldName "true" v]
     = negb (truthy (get values fieldName)).
Proof.
  assert (Hpress : forall vs,
             get (switchPress fieldName vs) fieldName
             = JsBoolean (negb (truthy (get vs fieldName)))).
  { intros vs. unfold switchPress.
    now rewrite get_onChange, String.eqb_refl. }
  split; [apply Hpress|]. split.
  { rewrite Hpress, Hpress. simpl. now rewrite negb_involutive. }
  split.
  { intros other Hne. unfold switchPress. rewrite get_onChange.
    destruct (String.eqb_spec fieldName other); congruence. }
  rewrite !isFieldVisible_forallb. cbn [forallb].
  unfold ZodForm.conditionHolds, cond. cbn [field operator value].
  rewrite Hpress. cbn.
  split; now destruct (truthy (get values fieldName)).
Qed.
